(** * RankingBot: the ranking-snapshot pipeline of [main.py]

    A shallow embedding of the pure and effectful parts of the bot
    (identity splitting, the rate-limit-aware GET, rank scoring and
    labelling, snapshot building and sorting, roster mutation) together
    with the properties the specification states about them. *)

From Stdlib Require Import ZArith NArith List String Ascii QArith Lia.
From stdpp Require Import base option list gmap strings fin_maps sorting.

Set Warnings "-register-all".
Local Open Scope Z_scope.

(** ** Python values *)

(** A Python [str] is a sequence of Unicode code points.  String literals
    of the source are ASCII and are written as Rocq strings. *)
Definition pystr := list N.

Definition ustr (s : string) : pystr :=
  (λ a, N_of_ascii a) <$> list_ascii_of_string s.
Coercion ustr : string >-> pystr.

(** JSON documents as [json.load] and [resp.json()] build them.  JSON
    numbers with a fraction (Python [float]) are left out: the ranking
    service sends integers. *)
Inductive value :=
| VNone
| VBool (b : bool)
| VInt (z : Z)
| VStr (s : pystr)
| VList (l : list value)
| VDict (d : gmap pystr value).

Abbreviation entry := (gmap pystr value).

(** The exceptions that the modelled code can raise.  All of them derive
    from [Exception]; [BaseException]s such as task cancellation are not
    modelled. *)
Inductive exn :=
| KeyError
| TypeError
| AttributeError
| ValueError
| AssertionError
| OSError
| ClientConnectorError
| ClientResponseError
| ClientError.

Inductive result (A : Type) :=
| Ok (a : A)
| Raise (e : exn).
Arguments Ok {A} a.
Arguments Raise {A} e.

#[global] Instance exn_eq_dec : EqDecision exn.
Proof. solve_decision. Defined.
#[global] Instance result_eq_dec {A} `{EqDecision A} : EqDecision (result A).
Proof. solve_decision. Defined.

Definition is_ok {A} (r : result A) : bool :=
  match r with Ok _ => true | Raise _ => false end.

#[global] Instance result_ret : MRet result := λ A a, Ok a.
#[global] Instance result_bind : MBind result := λ A B k r,
  match r with Ok a => k a | Raise e => Raise e end.

(** [bool(v)]: Python truthiness. *)
Definition truthy (v : value) : bool :=
  match v with
  | VNone => false
  | VBool b => b
  | VInt z => negb (z =? 0)
  | VStr s => negb (Nat.eqb (length s) 0)
  | VList l => negb (Nat.eqb (length l) 0)
  | VDict d => negb (Nat.eqb (size d) 0)
  end.

(** [v == s] for a string [s]. *)
Definition eq_str (v : value) (s : pystr) : bool :=
  match v with VStr t => bool_decide (t = s) | _ => false end.

(** [table[k]] for a table with string keys.  Lists and dicts are
    unhashable: using one as a key raises [TypeError]. *)
Definition subscript (table : gmap pystr Z) (k : value) : result Z :=
  match k with
  | VStr s => match table !! s with Some r => Ok r | None => Raise KeyError end
  | VList _ | VDict _ => Raise TypeError
  | _ => Raise KeyError
  end.

(** [table.get(k, dflt)] for a table with string keys. *)
Definition get_default (table : gmap pystr Z) (k : value) (dflt : Z) : result Z :=
  match k with
  | VStr s => Ok (default dflt (table !! s))
  | VList _ | VDict _ => Raise TypeError
  | _ => Ok dflt
  end.

(** [n + v] for an [int] [n]. *)
Definition int_add (n : Z) (v : value) : result Z :=
  match v with
  | VInt z => Ok (n + z)
  | VBool b => Ok (n + Z.b2z b)
  | _ => Raise TypeError
  end.

(** ** Ranking tables *)

Definition TIER_ORDER : gmap pystr Z :=
  list_to_map
    [ (ustr "IRON", 0); (ustr "BRONZE", 1); (ustr "SILVER", 2);
      (ustr "GOLD", 3); (ustr "PLATINUM", 4); (ustr "EMERALD", 5);
      (ustr "DIAMOND", 6); (ustr "MASTER", 7); (ustr "GRANDMASTER", 8);
      (ustr "CHALLENGER", 9) ].

Definition DIV_ORDER : gmap pystr Z :=
  list_to_map [ (ustr "IV", 0); (ustr "III", 1); (ustr "II", 2); (ustr "I", 3) ].

(** [tier in ("MASTER", "GRANDMASTER", "CHALLENGER")] *)
Definition in_apex (tier : value) : bool :=
  eq_str tier "MASTER" || eq_str tier "GRANDMASTER" || eq_str tier "CHALLENGER".

(** ** Ranking utils *)

Definition score_for_sort (e : option entry) : result Z :=
  match e with
  | None => Ok (-1)
  | Some d =>
    if negb (truthy (VDict d)) then Ok (-1) else
    let tier := default (VStr "IRON") (d !! ustr "tier") in
    let lp := default (VInt 0) (d !! ustr "leaguePoints") in
    if in_apex tier then
      t ← subscript TIER_ORDER tier ;
      int_add (t * 4000) lp
    else
      let div := default (VStr "IV") (d !! ustr "rank") in
      t ← subscript TIER_ORDER tier ;
      dv ← get_default DIV_ORDER div 0 ;
      int_add (t * 400 + dv * 100) lp
  end.

(** [next((e for e in entries if e.get("queueType") == queue), None)].
    The generator is consumed lazily: an element that is not a dict raises
    [AttributeError] only if no earlier element matched. *)
Fixpoint first_match (items : list value) (queue : pystr) : result (option entry) :=
  match items with
  | [] => Ok None
  | VDict d :: rest =>
    if eq_str (default VNone (d !! ustr "queueType")) queue then Ok (Some d)
    else first_match rest queue
  | _ :: _ => Raise AttributeError
  end.

(** Iterating a dict yields its keys and iterating a string its
    characters, all strings, which have no [get]; other values are not
    iterable. *)
Definition pick_queue_entry (entries : value) (queue : pystr) : result (option entry) :=
  match entries with
  | VList l => first_match l queue
  | VDict d => if truthy (VDict d) then Raise AttributeError else Ok None
  | VStr s => if truthy (VStr s) then Raise AttributeError else Ok None
  | _ => Raise TypeError
  end.

(** ** Strings *)

Definition hash : N := 35%N.

(** [str.isspace] for one character, as CPython's Unicode database has it. *)
Definition isspace (c : N) : bool :=
  ((9 <=? c) && (c <=? 13) || (28 <=? c) && (c <=? 32)
   || (c =? 133) || (c =? 160) || (c =? 5760)
   || (8192 <=? c) && (c <=? 8202) || (c =? 8232) || (c =? 8233)
   || (c =? 8239) || (c =? 8287) || (c =? 12288))%N.

Fixpoint lstrip (s : pystr) : pystr :=
  match s with
  | c :: s' => if isspace c then lstrip s' else s
  | [] => []
  end.

Definition rstrip (s : pystr) : pystr := reverse (lstrip (reverse s)).

(** [s.strip()] *)
Definition strip (s : pystr) : pystr := rstrip (lstrip s).

(** [c in s] for a one-character string [c]. *)
Definition contains (c : N) (s : pystr) : bool := bool_decide (c ∈ s).

(** [p in s] for strings: substring test. *)
Fixpoint has_substring (p s : pystr) : bool :=
  bool_decide (p `prefix_of` s)
  || match s with [] => false | _ :: s' => has_substring p s' end.

(** [s.split(c, 1)] for a one-character separator that occurs in [s]: the
    text before the first occurrence and the text after it. *)
Fixpoint split1 (c : N) (s : pystr) : pystr * pystr :=
  match s with
  | [] => ([], [])
  | x :: s' =>
    if bool_decide (x = c) then ([], s')
    else let '(a, b) := split1 c s' in (x :: a, b)
  end.

(** ** Insertion-ordered dictionaries

    [players] and the snapshot are dicts whose iteration order is
    observable (it is the roster order of the leaderboard), so they are
    kept as association lists in insertion order. *)
Definition odict (V : Type) := list (pystr * V).

(** [d[k] = v]: an existing key keeps its position, a new key is appended. *)
Fixpoint od_set {V} (k : pystr) (v : V) (d : odict V) : odict V :=
  match d with
  | [] => [(k, v)]
  | (k', v') :: d' =>
    if bool_decide (k' = k) then (k, v) :: d' else (k', v') :: od_set k v d'
  end.

Definition keys {V} (d : odict V) : list pystr := d.*1.

(** ** The world the bot runs in *)

(** What one [session.get] can do. [json = None] stands for a body that
    [resp.json()] rejects. *)
Record response := Response {
  status : Z;
  retry_after : option pystr;
  json : option value;
}.

Inductive http_outcome :=
| ConnectFails
| RequestFails
| Responds (r : response).

(** What one [save_data] can do: succeed, fail in [open] (the file is
    left as it was), or fail while writing (the file was truncated by
    [open] and holds an incomplete document). *)
Inductive write_outcome :=
| WriteOk
| OpenFails
| WriteFails.

(** The messages the modelled commands send to the chat. *)
Inductive reply :=
| ReplyKeyMissing
| ReplyUnresolved
| ReplySet (display_name riot_id : pystr).

Inductive event :=
| Get (url : pystr)
| Sleep (seconds : Q)
| Send (r : reply).

(** One roster record, [{"riot_id": ..., "puuid": ...}]. *)
Abbreviation cfg := (gmap pystr value).

(** The module-level [data]: [players] is [None] when the document has no
    ["players"] key. *)
Record document := Document {
  players : option (odict cfg);
}.

Inductive file_state :=
| NoFile
| Saved (d : document)
| Truncated.

Record world := World {
  requests : nat;
  writes : nat;
  trace : list event;
  data : document;
  file : file_state;
}.

(** Computations that read and change the world and may raise. *)
Definition io (A : Type) : Type := world → result A * world.

#[global] Instance io_ret : MRet io := λ A a w, (Ok a, w).
#[global] Instance io_bind : MBind io := λ A B k m w,
  match m w with
  | (Ok a, w') => k a w'
  | (Raise e, w') => (Raise e, w')
  end.

Definition raise {A} (e : exn) : io A := λ w, (Raise e, w).

Definition lift {A} (r : result A) : io A := λ w, (r, w).

(** [try: m  except Exception as e: h e] *)
Definition try_except {A} (m : io A) (h : exn → io A) : io A := λ w,
  match m w with
  | (Ok a, w') => (Ok a, w')
  | (Raise e, w') => h e w'
  end.

Definition emit (e : event) : io unit := λ w,
  (Ok (), World (requests w) (writes w) (trace w ++ [e]) (data w) (file w)).

(** [await asyncio.sleep(seconds)] *)
Definition sleep (seconds : Q) : io unit := emit (Sleep seconds).

(** [await ctx.send(...)] *)
Definition send (r : reply) : io unit := emit (Send r).

(** ** Sorting, as [sorted(..., key=..., reverse=True)] does it

    CPython computes the key of every item first, and with [reverse=True]
    it reverses the list, sorts it stably in ascending key order and
    reverses the result.  Any stable sort gives the same list; the
    insertion sort below is the one timsort uses on short runs. *)
Fixpoint insert_asc {A} (x : Z * A) (l : list (Z * A)) : list (Z * A) :=
  match l with
  | [] => [x]
  | y :: l' => if x.1 <=? y.1 then x :: l else y :: insert_asc x l'
  end.

Fixpoint sort_asc {A} (l : list (Z * A)) : list (Z * A) :=
  match l with
  | [] => []
  | x :: l' => insert_asc x (sort_asc l')
  end.

Definition py_sorted {A} (key : A → result Z) (rev : bool) (l : list A)
  : result (list A) :=
  keyed ← mapM (λ x, k ← key x; mret (k, x)) l;
  mret (if rev then reverse (sort_asc (reverse keyed)) else sort_asc keyed).*2.

Definition sort_snapshot (snap : odict (option entry))
  : result (list (pystr * option entry)) :=
  py_sorted (λ kv, score_for_sort kv.2) true snap.

(** How one iteration of a loop ends: [continue], or [return a]. *)
Inductive control (A : Type) :=
| Continue
| Return (a : A).
Arguments Continue {A}.
Arguments Return {A} a.

Section Bot.
(** Python built-ins and library functions the bot calls. *)
Variable normalize_nfc : pystr → pystr.
Variable quote : pystr → pystr.
Variable py_float : pystr → option Q.
Variable str_title : pystr → pystr.
Variable format_other : value → pystr.
(** The environment: the outcome of the n-th request and of the n-th
    write of the run, and the configured credential. *)
Variable remote : nat → http_outcome.
Variable storage : nat → write_outcome.
Variable RIOT_API_KEY : pystr.

(** [f"{v}"] *)
Definition format (v : value) : pystr :=
  match v with VStr s => s | _ => format_other v end.

Definition sanitize_user_key (s : pystr) : pystr := strip (normalize_nfc s).

Definition split_riot_id (s : pystr) : pystr * option pystr :=
  let s := sanitize_user_key s in
  if contains hash s then
    let '(game, tag) := split1 hash s in
    (strip game, Some (strip tag))
  else (s, None).

(** *** Storage *)

Definition save_data (d : document) : io unit := λ w,
  let n := S (writes w) in
  match storage (writes w) with
  | WriteOk => (Ok (), World (requests w) n (trace w) (data w) (Saved d))
  | OpenFails => (Raise OSError, World (requests w) n (trace w) (data w) (file w))
  | WriteFails => (Raise OSError, World (requests w) n (trace w) (data w) Truncated)
  end.

(** *** Riot API *)

Record RiotClient := Client {
  api_key : pystr;
  session : bool;
}.

(** [async with RiotClient(api_key) as rc: body] *)
Definition with_client {A} (key : pystr) (body : RiotClient → io A) : io A :=
  body (Client key true).

Definition platform_base_euw : pystr := "https://euw1.api.riotgames.com".
Definition account_base_europe : pystr := "https://europe.api.riotgames.com".

(** [self.session.get(url, params={})] *)
Definition session_get (url : pystr) : io response := λ w,
  let w' := World (S (requests w)) (writes w) (trace w ++ [Get url]) (data w) (file w) in
  match remote (requests w) with
  | ConnectFails => (Raise ClientConnectorError, w')
  | RequestFails => (Raise ClientError, w')
  | Responds r => (Ok r, w')
  end.

(** [max(1.5 * (i + 1), 2.0)] *)
Definition fallback_wait (i : Z) : Q :=
  let a := (1.5 * inject_Z (i + 1))%Q in
  if Qle_bool a 2 then 2%Q else a.

(** [float(retry_after) if retry_after else max(1.5 * (i + 1), 2.0)] *)
Definition retry_wait (resp : response) (i : Z) : result Q :=
  match retry_after resp with
  | Some h =>
    if truthy (VStr h) then
      match py_float h with
      | Some q => Ok q
      | None => Raise ValueError
      end
    else Ok (fallback_wait i)
  | None => Ok (fallback_wait i)
  end.

(** The body of the [try] of [_get], for attempt [i]. *)
Definition attempt (url : pystr) (i : Z) : io (control value) :=
  resp ← session_get url;
  if status resp =? 429 then
    wait ← lift (retry_wait resp i);
    _ ← sleep wait;
    mret Continue
  else if bool_decide (status resp ∈ [401; 403; 400; 404]) then
    mret (Return VNone)
  else if 400 <=? status resp then raise ClientResponseError
  else
    match json resp with
    | Some v => mret (Return v)
    | None => raise ValueError
    end.

Fixpoint get_loop (url : pystr) (attempts : list Z) : io value :=
  match attempts with
  | [] => mret VNone
  | i :: rest =>
    c ← try_except (attempt url i) (λ _, mret (Return VNone));
    match c with
    | Continue => get_loop url rest
    | Return v => mret v
    end
  end.

Definition _get (rc : RiotClient) (url : pystr) (tries : Z) : io value :=
  if session rc then get_loop url (seqZ 0 tries) else raise AssertionError.

(** The [url] of [league_entries_by_puuid_euw]. *)
Definition league_url (encrypted_puuid : value) : pystr :=
  platform_base_euw ++ ustr "/lol/league/v4/entries/by-puuid/"
  ++ format encrypted_puuid.

Definition league_entries_by_puuid_euw (rc : RiotClient) (encrypted_puuid : value)
  : io value :=
  let url := league_url encrypted_puuid in
  data ← _get rc url 2;
  mret (if truthy data then data else VList []).

(** The [url] of [account_by_riot_id_eu]. *)
Definition account_url (game_name tag_line : pystr) : pystr :=
  let game_q := quote game_name in
  let tag_q := quote tag_line in
  account_base_europe ++ ustr "/riot/account/v1/accounts/by-riot-id/"
  ++ game_q ++ ustr "/" ++ tag_q.

Definition account_by_riot_id_eu (rc : RiotClient) (game_name tag_line : pystr)
  : io value :=
  let url := account_url game_name tag_line in
  _get rc url 2.

(** *** Labels *)

Definition em_dash : pystr := [8212%N].

Definition compact_rank (e : option entry) : result pystr :=
  match e with
  | None => Ok (ustr "*Unranked*")
  | Some d =>
    if negb (truthy (VDict d)) then Ok (ustr "*Unranked*") else
    match d !! ustr "tier" with
    | None => Raise KeyError
    | Some tier =>
      let lp := default (VInt 0) (d !! ustr "leaguePoints") in
      let w := default (VInt 0) (d !! ustr "wins") in
      let l := default (VInt 0) (d !! ustr "losses") in
      let tail := format lp ++ ustr " LP (W " ++ format w
                  ++ ustr "/L " ++ format l ++ ustr ")" in
      match tier with
      | VStr t =>
        if in_apex tier then Ok (str_title t ++ ustr " " ++ tail)
        else
          let div := default (VStr "IV") (d !! ustr "rank") in
          Ok (str_title t ++ ustr " " ++ format div ++ ustr " "
              ++ em_dash ++ ustr " " ++ tail)
      | _ => Raise AttributeError
      end
    end
  end.

(** *** Snapshot *)

Fixpoint snapshot_loop (rc : RiotClient) (queue : pystr)
    (items : list (pystr * cfg)) (out : odict (option entry))
  : io (odict (option entry)) :=
  match items with
  | [] => mret out
  | (name, c) :: rest =>
    let puuid := default VNone (c !! ustr "puuid") in
    if negb (truthy puuid) then
      snapshot_loop rc queue rest (od_set name None out)
    else
      picked ← try_except
                 (entries ← league_entries_by_puuid_euw rc puuid;
                  lift (pick_queue_entry entries queue))
                 (λ _, mret None);
      _ ← sleep 0.2;
      snapshot_loop rc queue rest (od_set name picked out)
  end.

Definition fetch_snapshot (queue : pystr) (roster : odict cfg) (key : pystr)
  : io (odict (option entry)) :=
  with_client key (λ rc, snapshot_loop rc queue roster []).

(** *** Helpers and commands *)

(** [acct and "puuid" in acct], then [acct["puuid"]]. *)
Definition puuid_of (acct : value) : result value :=
  if negb (truthy acct) then Ok VNone else
  match acct with
  | VDict d => Ok (default VNone (d !! ustr "puuid"))
  | VList l =>
    if existsb (λ v, eq_str v "puuid") l then Raise TypeError else Ok VNone
  | VStr s =>
    if has_substring (ustr "puuid") s then Raise TypeError else Ok VNone
  | _ => Raise TypeError
  end.

Definition resolve_puuid_from_riot_id (riot_id key : pystr) : io value :=
  let '(game, tag) := split_riot_id riot_id in
  match tag with
  | None => mret VNone
  | Some tag =>
    if negb (truthy (VStr tag)) then mret VNone else
    with_client key (λ rc,
      acct ← account_by_riot_id_eu rc game tag;
      lift (puuid_of acct))
  end.

Definition require_api : io bool :=
  if negb (truthy (VStr RIOT_API_KEY)) then
    _ ← send ReplyKeyMissing; mret false
  else mret true.

(** [data.setdefault("players", {})] and
    [data["players"][display_name] = record] *)
Definition set_record (display_name : pystr) (record : cfg) : io unit := λ w,
  let roster := default [] (players (data w)) in
  (Ok (), World (requests w) (writes w) (trace w)
            (Document (Some (od_set display_name record roster))) (file w)).

Definition setplayer (display_name riot_id : pystr) : io unit :=
  ok ← require_api;
  if negb ok then mret () else
  let riot_id := sanitize_user_key riot_id in
  puuid ← resolve_puuid_from_riot_id riot_id RIOT_API_KEY;
  if negb (truthy puuid) then send ReplyUnresolved else
  _ ← set_record display_name
        (<[ustr "riot_id" := VStr riot_id]> (<[ustr "puuid" := puuid]> ∅));
  _ ← (λ w, save_data (data w) w);
  send (ReplySet display_name riot_id).

End Bot.

(** ** The rest of the bot *)

(** [d.get(k)] *)
Fixpoint od_get {V} (k : pystr) (d : odict V) : option V :=
  match d with
  | [] => None
  | (k', v) :: d' => if bool_decide (k' = k) then Some v else od_get k d'
  end.

(** [del d[k]], for a key of [d]. *)
Fixpoint od_del {V} (k : pystr) (d : odict V) : odict V :=
  match d with
  | [] => []
  | (k', v) :: d' => if bool_decide (k' = k) then d' else (k', v) :: od_del k d'
  end.

(** ["\n".join(lines)] *)
Fixpoint join_lines (lines : list pystr) : pystr :=
  match lines with
  | [] => []
  | [l] => l
  | l :: rest => l ++ [10%N] ++ join_lines rest
  end.

(** The parts of a [discord.Embed] that [build_embed] computes from its
    arguments; the timestamp is the wall clock and the colour is fixed. *)
Record embed := Embed {
  title : pystr;
  description : pystr;
  footer : pystr;
}.

(** What [removeplayer] tells the chat. *)
Inductive removal :=
| Removed (display_name : pystr)
| NotTracked.

(** A [datetime] of the zone [TZ]: the proleptic Gregorian ordinal of its
    date and the microseconds since midnight of its wall-clock time.  Two
    datetimes of one zone are compared and subtracted by their wall-clock
    fields. *)
Record datetime := Datetime {
  ordinal : Z;
  micros : Z;
}.

Definition WEEKLY_POST_HOUR : Z := 18.
Definition WEEKLY_POST_MIN : Z := 0.

(** [t.weekday()]: Monday is 0 and Sunday is 6; ordinal 1 is a Monday. *)
Definition weekday (t : datetime) : Z := (ordinal t + 6) mod 7.

(** [t + timedelta(days=n)] *)
Definition add_days (t : datetime) (n : Z) : datetime :=
  Datetime (ordinal t + n) (micros t).

(** [t.replace(hour=h, minute=m, second=s, microsecond=us)] *)
Definition replace_time (t : datetime) (h m s us : Z) : datetime :=
  Datetime (ordinal t) (((h * 60 + m) * 60 + s) * 1000000 + us).

(** [a <= b] *)
Definition datetime_le (a b : datetime) : bool :=
  (ordinal a <? ordinal b) || (ordinal a =? ordinal b) && (micros a <=? micros b).

Definition next_sunday_1800 (now : datetime) : datetime :=
  let days_ahead := (6 - weekday now) mod 7 in
  let target := replace_time (add_days now days_ahead)
                  WEEKLY_POST_HOUR WEEKLY_POST_MIN 0 0 in
  if datetime_le target now then add_days target 7 else target.

(** [load_data]: no file is the empty roster; a file that [save_data]
    wrote is the document it wrote; an incomplete file is rejected by
    [json.load]. *)
Definition load_data : io document := λ w,
  match file w with
  | NoFile => (Ok (Document (Some [])), w)
  | Saved d => (Ok d, w)
  | Truncated => (Raise ValueError, w)
  end.

Definition DEFAULT_QUEUE : pystr := "RANKED_SOLO_5x5".

Section Rest.
Variable py_float : pystr → option Q.
Variable str_title : pystr → pystr.
Variable str_lower : pystr → pystr.
Variable format_other : value → pystr.
Variable remote : nat → http_outcome.
Variable storage : nat → write_outcome.
Variable RIOT_API_KEY : pystr.

(** The lines of [build_embed], numbered from [i]. *)
Fixpoint embed_lines (i : Z) (rows : list (pystr * option entry))
  : result (list pystr) :=
  match rows with
  | [] => Ok []
  | (name, e) :: rest =>
    label ← compact_rank str_title format_other e;
    lines ← embed_lines (i + 1) rest;
    mret ((ustr "**" ++ format format_other (VInt i) ++ ustr ". " ++ name
           ++ ustr "** " ++ em_dash ++ ustr " " ++ label) :: lines)
  end.

Definition no_players_line : pystr :=
  "No players tracked. Use `!setplayer <display_name> <Game#Tag>` (EUW).".

Definition build_embed (rows : list (pystr * option entry)) (queue_label : pystr)
  : result embed :=
  lines ← embed_lines 1 rows;
  let lines := match lines with [] => [no_players_line] | _ => lines end in
  mret (Embed (ustr "LoL " ++ em_dash ++ ustr " " ++ queue_label
               ++ ustr " Ranking (EUW)")
              (join_lines lines)
              (ustr "Riot API " ++ [8226%N] ++ ustr " EUW only " ++ [8226%N]
               ++ ustr " League v4 by PUUID")).

Definition build_embed_from_snapshot (snap : odict (option entry))
    (queue_label : pystr) : result embed :=
  rows ← sort_snapshot snap;
  build_embed rows queue_label.

(** [rank]: the embed it sends, or [None] when the credential is missing. *)
Definition rank (mode : pystr) : io (option embed) :=
  ok ← require_api RIOT_API_KEY;
  if negb ok then mret None else
  let queue := if bool_decide (str_lower mode = ustr "solo")
               then DEFAULT_QUEUE else ustr "RANKED_FLEX_SR" in
  let label := if bool_decide (queue = ustr "RANKED_SOLO_5x5")
               then ustr "Solo/Duo" else ustr "Flex" in
  snap ← (λ w, fetch_snapshot py_float format_other remote queue
                 (default [] (players (data w))) RIOT_API_KEY w);
  e ← lift (build_embed_from_snapshot snap label);
  mret (Some e).

(** [del data["players"][display_name]] *)
Definition del_record (display_name : pystr) : io unit := λ w,
  let roster := default [] (players (data w)) in
  (Ok (), World (requests w) (writes w) (trace w)
            (Document (Some (od_del display_name roster))) (file w)).

(** [display_name in data.get("players", {})] *)
Definition is_tracked (display_name : pystr) : io bool := λ w,
  (Ok (bool_decide (display_name ∈ keys (default [] (players (data w))))), w).

(** [removeplayer]: its result is the message it sends. *)
Definition removeplayer (display_name : pystr) : io removal :=
  tracked ← is_tracked display_name;
  if (tracked : bool) then
    _ ← del_record display_name;
    _ ← ((λ w, save_data storage (data w) w) : io unit);
    (mret (Removed display_name) : io removal)
  else (mret NotTracked : io removal).

End Rest.

(** ** Vocabulary of the specification *)

(** The tier rank and league points of a rank entry, when the entry has a
    tier of the table and an integer for its points. *)
Definition tier_rank (e : entry) : option Z :=
  match e !! ustr "tier" with
  | Some (VStr t) => TIER_ORDER !! t
  | _ => None
  end.

Definition league_points (e : entry) : option Z :=
  match e !! ustr "leaguePoints" with
  | Some (VInt z) => Some z
  | _ => None
  end.

(** The division is a string (any string) or is missing. *)
Definition division_is_text (e : entry) : Prop :=
  match e !! ustr "rank" with
  | None | Some (VStr _) => True
  | Some _ => False
  end.

(** The apex tiers are the top three of the ten. *)
Definition apex (r : Z) : bool := 7 <=? r.

(** A ranked entry: known tier, non-negative league points. *)
Definition ranked (e : entry) (r lp : Z) : Prop :=
  tier_rank e = Some r ∧ league_points e = Some lp ∧ 0 ≤ lp ∧ division_is_text e.

(** A valid entry: in addition, fewer than 100 points below the apex. *)
Definition valid_rank_entry (e : entry) (r lp : Z) : Prop :=
  ranked e r lp ∧ (apex r = false → lp < 100).

Definition rank_entry (tier division : string) (lp : Z) : entry :=
  <[ustr "tier" := VStr tier]>
    (<[ustr "rank" := VStr division]> (<[ustr "leaguePoints" := VInt lp]> ∅)).

(** The snapshot order: [a] may precede [b] when both have a score and
    [a]'s is not below [b]'s. *)
Definition scores_descend {A} (key : A → result Z) (a b : A) : Prop :=
  ∃ ka kb, key a = Ok ka ∧ key b = Ok kb ∧ kb ≤ ka.

(** The rows of a snapshot whose score is [k], in the order of the list. *)
Definition tied {A} (key : A → result Z) (k : Z) (l : list A) : list A :=
  filter (λ x, key x = Ok k) l.

(** [x] occurs before [y] in [l]. *)
Definition before {A} (x y : A) (l : list A) : Prop := [x; y] `sublist_of` l.

(** The order key of a snapshot row. *)
Definition order_key (row : pystr * option entry) : result Z :=
  score_for_sort row.2.

(** The roster of the specification's example, as a snapshot, with a
    second unranked player. *)
Definition example_snapshot : odict (option entry) :=
  [ (ustr "A", None);
    (ustr "B", Some (rank_entry "GOLD" "II" 40));
    (ustr "C", Some (rank_entry "PLATINUM" "IV" 0));
    (ustr "D", None) ].

(** The URLs requested by a run, from its events. *)
Definition gets (evs : list event) : list pystr :=
  omap (λ e, match e with Get url => Some url | _ => None end) evs.

(** A response that [_get] hands to its caller: no error status and a
    body that decodes to [v]. *)
Definition delivers (o : http_outcome) (v : value) : Prop :=
  match o with
  | Responds r => status r < 400 ∧ json r = Some v
  | _ => False
  end.

(** The world after one more request to [url], and after a sleep. *)
Definition requested (url : pystr) (w : world) : world :=
  World (S (requests w)) (writes w) (trace w ++ [Get url]) (data w) (file w).

Definition slept (q : Q) (w : world) : world :=
  World (requests w) (writes w) (trace w ++ [Sleep q]) (data w) (file w).

(** A string without leading or trailing whitespace. *)
Definition stripped (s : pystr) : Prop :=
  (∀ c, head s = Some c → isspace c = false)
  ∧ (∀ c, last s = Some c → isspace c = false).

(** The row that a snapshot holds for one roster record when the fetch
    for that record starts in the world [w]: the absent entry without a
    cached stable id, else the first entry for the queue among those
    fetched, and the absent entry if picking it fails. *)
Definition snapshot_row (py_float : pystr → option Q)
    (format_other : value → pystr) (remote : nat → http_outcome)
    (queue key : pystr) (record : pystr * cfg) (w : world)
  : pystr * option entry :=
  let puuid := default VNone (record.2 !! ustr "puuid") in
  if truthy puuid then
    match league_entries_by_puuid_euw py_float format_other remote
            (Client key true) puuid w with
    | (Ok entries, _) =>
      match pick_queue_entry entries queue with
      | Ok picked => (record.1, picked)
      | Raise _ => (record.1, None)
      end
    | (Raise _, _) => (record.1, None)
    end
  else (record.1, None).


(** The world in which the next record is handled, when [record] is
    handled from the world [w]: [w] itself without a cached stable id,
    else the world after the fetch and the pause of 0.2 seconds. *)
Definition world_after_record (py_float : pystr → option Q)
    (format_other : value → pystr) (remote : nat → http_outcome)
    (key : pystr) (record : pystr * cfg) (w : world) : world :=
  let puuid := default VNone (record.2 !! ustr "puuid") in
  if truthy puuid then
    slept 0.2 (league_entries_by_puuid_euw py_float format_other remote
                 (Client key true) puuid w).2
  else w.

(** The worlds in which the records of a roster are handled, one after
    the other, by a run that starts in [w]. *)
Fixpoint worlds_before (py_float : pystr → option Q)
    (format_other : value → pystr) (remote : nat → http_outcome)
    (key : pystr) (roster : list (pystr * cfg)) (w : world) : list world :=
  match roster with
  | [] => []
  | record :: rest =>
    w :: worlds_before py_float format_other remote key rest
           (world_after_record py_float format_other remote key record w)
  end.

(** The world in which such a run ends. *)
Definition world_after_roster (py_float : pystr → option Q)
    (format_other : value → pystr) (remote : nat → http_outcome)
    (key : pystr) (roster : list (pystr * cfg)) (w : world) : world :=
  foldl (λ w record, world_after_record py_float format_other remote key record w)
    w roster.

(** The roster a world holds in memory. *)
Definition roster_of (w : world) : odict cfg := default [] (players (data w)).

(** A set operation for [display_name] that took the world [w] to [w']
    fully succeeded: the in-memory roster is the one of [w] with a record
    for [display_name] that caches a stable id, and the file holds it. *)
Definition fully_set (display_name : pystr) (w w' : world) : Prop :=
  ∃ record puuid,
    record !! ustr "puuid" = Some puuid ∧ truthy puuid = true
    ∧ players (data w') = Some (od_set display_name record (roster_of w))
    ∧ file w' = Saved (data w').

(** The roster of [w'] is the one of [w], in memory and in the file. *)
Definition untouched (w w' : world) : Prop :=
  data w' = data w ∧ file w' = file w.

(** An environment for examples: NFC and percent-encoding restricted to
    strings they leave alone, a [float] that reads ["3"], a service that
    answers every request with a 429 and [Retry-After: 3], one that knows
    every account, and a disk that cannot be opened for writing. *)
Definition example_nfc (s : pystr) : pystr := s.
Definition example_quote (s : pystr) : pystr := s.
Definition example_float (s : pystr) : option Q :=
  if bool_decide (s = ustr "3") then Some 3%Q else None.
Definition example_format (v : value) : pystr := ustr "?".
Definition always_limited (n : nat) : http_outcome :=
  Responds (Response 429 (Some (ustr "3")) None).
Definition always_found (n : nat) : http_outcome :=
  Responds (Response 200 None
              (Some (VDict (<[ustr "puuid" := VStr "P-1"]> ∅)))).
Definition read_only_disk (n : nat) : write_outcome := OpenFails.

Definition empty_world : world :=
  World 0 0 [] (Document (Some [])) (Saved (Document (Some []))).

Definition example_roster : odict cfg :=
  [ (ustr "A", ∅);
    (ustr "B", <[ustr "puuid" := VStr "P-2"]> ∅) ].

(** The division rank of an entry whose division is one of the table. *)
Definition division_rank (e : entry) : option Z :=
  match e !! ustr "rank" with
  | Some (VStr d) => DIV_ORDER !! d
  | _ => None
  end.

(** A dict that is not an entry for [queue]. *)
Definition other_queue (queue : pystr) (v : value) : Prop :=
  ∃ d, v = VDict d ∧ d !! ustr "queueType" ≠ Some (VStr queue).

(** The line of the leaderboard for the player [name] at place [i]. *)
Definition leaderboard_line (format_other : value → pystr) (i : Z)
    (name label : pystr) : pystr :=
  ustr "**" ++ format format_other (VInt i) ++ ustr ". " ++ name
  ++ ustr "** " ++ em_dash ++ ustr " " ++ label.

(** What [_get] returns for an outcome that is no 429: the decoded body
    of a response without error status, and [None] otherwise. *)
Definition body_of (o : http_outcome) : value :=
  match o with
  | Responds r => if 400 <=? status r then VNone else default VNone (json r)
  | _ => VNone
  end.

(** A 429 response without [Retry-After]. *)
Definition limited_without_delay (o : http_outcome) : Prop :=
  ∃ r, o = Responds r ∧ status r = 429 ∧ retry_after r = None.

(** The requests and sleeps of a call whose attempts all end in such a
    response. *)
Definition backoff_schedule (url : pystr) (attempts : list Z) : list event :=
  attempts ≫= λ i, [Get url; Sleep (fallback_wait i)].

Definition never_delayed (n : nat) : http_outcome :=
  Responds (Response 429 None None).
Definition always_refused (n : nat) : http_outcome := ConnectFails.
Definition bad_delay (n : nat) : http_outcome :=
  Responds (Response 429 (Some (ustr "soon")) None).

(** The roster records that cache a stable id. *)
Definition cached (roster : list (pystr * cfg)) : list (pystr * cfg) :=
  filter (λ record, truthy (default VNone (record.2 !! ustr "puuid")) = true)
    roster.

(** The title of the leaderboard for a mode, given [str.lower]. *)
Definition title_of_mode (str_lower : pystr → pystr) (mode : pystr) : pystr :=
  ustr "LoL " ++ em_dash ++ ustr " "
  ++ (if bool_decide (str_lower mode = ustr "solo")
      then ustr "Solo/Duo" else ustr "Flex")
  ++ ustr " Ranking (EUW)".

(** The record that [setplayer] stores. *)
Definition player_record (riot_id : pystr) (puuid : value) : cfg :=
  <[ustr "riot_id" := VStr riot_id]> (<[ustr "puuid" := puuid]> ∅).

(** A string of whitespace only. *)
Definition blank (s : pystr) : Prop := Forall (λ c, isspace c = true) s.

(** Sunday, 18:00:00, as microseconds since midnight. *)
Definition sunday : Z := 6.
Definition six_pm : Z := 64800000000.
Definition day_micros : Z := 86400000000.

(** [a < b] on datetimes of one zone. *)
Definition datetime_lt (a b : datetime) : Prop :=
  ordinal a < ordinal b ∨ (ordinal a = ordinal b ∧ micros a < micros b).

(** The world after a set operation that went through: one request, one
    write, the record in memory and in the file, the confirmation sent. *)
Definition after_set (quote : pystr → pystr)
    (display_name riot_id game tag : pystr) (puuid : value) (w : world)
  : world :=
  let d := Document (Some (od_set display_name (player_record riot_id puuid)
                             (roster_of w))) in
  World (S (requests w)) (S (writes w))
    (trace w ++ [Get (account_url quote game tag);
                 Send (ReplySet display_name riot_id)])
    d (Saved d).

(** The world after a removal that went through. *)
Definition after_remove (display_name : pystr) (w : world) : world :=
  let d := Document (Some (od_del display_name (roster_of w))) in
  World (requests w) (S (writes w)) (trace w) d (Saved d).

(** The world after a message to the chat and nothing else. *)
Definition told (r : reply) (w : world) : world :=
  World (requests w) (writes w) (trace w ++ [Send r]) (data w) (file w).

Definition writable_disk (n : nat) : write_outcome := WriteOk.

(** The account that [always_found] answers with, its response, and a
    world that tracks the example roster. *)
Definition example_account : entry := <[ustr "puuid" := VStr "P-1"]> ∅.
Definition example_found : response :=
  Response 200 None (Some (VDict example_account)).
Definition tracked_world : world :=
  World 0 0 [] (Document (Some example_roster))
    (Saved (Document (Some example_roster))).

Definition example_title (s : pystr) : pystr := s.
Definition example_lower (s : pystr) : pystr := s.

(** An entry without a tier, and entries of two queues. *)
Definition example_tierless : entry := <[ustr "leaguePoints" := VInt 20]> ∅.
Definition example_flex : entry := <[ustr "queueType" := VStr "RANKED_FLEX_SR"]> ∅.
Definition example_solo : entry := <[ustr "queueType" := VStr "RANKED_SOLO_5x5"]> ∅.

(** A service that answers the first request with one solo-queue entry
    and refuses every later connection, and a roster of two records that
    both cache a stable id. *)
Definition example_gold : entry :=
  <[ustr "queueType" := VStr "RANKED_SOLO_5x5"]>
    (<[ustr "tier" := VStr "GOLD"]> ∅).
Definition first_then_refused (n : nat) : http_outcome :=
  match n with
  | O => Responds (Response 200 None (Some (VList [VDict example_gold])))
  | S _ => ConnectFails
  end.
Definition example_pair : odict cfg :=
  [ (ustr "A", <[ustr "puuid" := VStr "P-1"]> ∅);
    (ustr "B", <[ustr "puuid" := VStr "P-2"]> ∅) ].

(** * Properties *)

(** ** Scores *)

Lemma truthy_lookup (d : entry) k v : d !! k = Some v → truthy (VDict d) = true.
Proof.
  intros Hk. simpl. destruct (size d) eqn:Hs; [|done].
  apply map_size_empty_iff in Hs. subst d. by rewrite lookup_empty in Hk.
Qed.

Lemma tier_table t r :
  TIER_ORDER !! t = Some r →
  0 ≤ r ≤ 9 ∧ in_apex (VStr t) = apex r.
Proof.
  intros Ht. apply elem_of_list_to_map_2 in Ht.
  repeat (apply elem_of_cons in Ht as [Ht|Ht];
          [injection Ht as -> ->; vm_compute; intuition congruence|]).
  by apply elem_of_nil in Ht.
Qed.

Lemma division_table s : 0 ≤ default 0 (DIV_ORDER !! s) ≤ 3.
Proof.
  destruct (DIV_ORDER !! s) as [dv|] eqn:Hd; simpl; [|lia].
  apply elem_of_list_to_map_2 in Hd.
  repeat (apply elem_of_cons in Hd as [Hd|Hd]; [injection Hd as -> ->; lia|]).
  by apply elem_of_nil in Hd.
Qed.

(** The score of a ranked entry, in closed form. *)
Lemma score_ranked e r lp :
  ranked e r lp →
  ∃ dv, 0 ≤ dv ≤ 3 ∧
    score_for_sort (Some e)
    = Ok (if apex r then r * 4000 + lp else r * 400 + dv * 100 + lp).
Proof.
  intros (Hr & Hlp & _ & Hdiv).
  unfold tier_rank in Hr. unfold league_points in Hlp.
  unfold division_is_text in Hdiv. unfold score_for_sort.
  destruct (e !! ustr "tier") as [[| | |t| |]|] eqn:Htier; try done.
  rewrite (truthy_lookup _ _ _ Htier). simpl negb. cbv iota.
  destruct (e !! ustr "leaguePoints") as [[| |z| | |]|]; try done.
  injection Hlp as ->.
  destruct (tier_table _ _ Hr) as [_ Hap]. simpl default. rewrite Hap.
  destruct (apex r).
  - exists 0. split; [lia|]. simpl. by rewrite Hr.
  - destruct (e !! ustr "rank") as [[| | |s| |]|]; try done.
    + exists (default 0 (DIV_ORDER !! s)). split; [apply division_table|].
      simpl. by rewrite Hr.
    + exists 0. split; [lia|]. simpl. by rewrite Hr.
Qed.

(** C1, as stated, fails between apex tiers: a Grandmaster entry with 0
    league points and a Master entry with 4000 league points are both
    valid, the first has the higher tier, and both score 32000. *)
Lemma tier_dominance_counterexample :
  valid_rank_entry (rank_entry "GRANDMASTER" "I" 0) 8 0
  ∧ valid_rank_entry (rank_entry "MASTER" "I" 4000) 7 4000
  ∧ 7 < 8
  ∧ score_for_sort (Some (rank_entry "GRANDMASTER" "I" 0)) = Ok 32000
  ∧ score_for_sort (Some (rank_entry "MASTER" "I" 4000)) = Ok 32000
  ∧ ¬ (32000 > 32000).
Proof.
  repeat split; try (vm_compute; done); lia.
Qed.

(** C1, amended: for valid entries [a] and [b] (league points
    non-negative, below 100 for non-apex tiers) such that [b]'s league
    points are below 4000 when [b]'s tier is an apex tier, a higher tier
    rank of [a] gives [score a > score b], whatever the divisions and
    league points. *)
Theorem tier_dominance a b ra rb la lb :
  valid_rank_entry a ra la →
  valid_rank_entry b rb lb →
  (apex rb = true → lb < 4000) →
  ra > rb →
  ∃ sa sb,
    score_for_sort (Some a) = Ok sa ∧ score_for_sort (Some b) = Ok sb ∧ sa > sb.
Proof.
  intros [Ha Ha100] [Hb Hb100] Hb4000 Hgt.
  destruct (score_ranked _ _ _ Ha) as (da & Hda & ->).
  destruct (score_ranked _ _ _ Hb) as (db & Hdb & ->).
  destruct Ha as (_ & _ & Hla & _), Hb as (_ & _ & Hlb & _).
  eexists _, _. split; [done|]. split; [done|].
  unfold apex in *.
  destruct (7 <=? ra) eqn:Hra, (7 <=? rb) eqn:Hrb;
    try specialize (Ha100 eq_refl); try specialize (Hb100 eq_refl);
    try specialize (Hb4000 eq_refl); lia.
Qed.

Lemma tier_dominance_witness :
  ∃ sa sb,
    score_for_sort (Some (rank_entry "PLATINUM" "IV" 0)) = Ok sa
    ∧ score_for_sort (Some (rank_entry "GOLD" "II" 40)) = Ok sb
    ∧ sa > sb.
Proof.
  apply (tier_dominance _ _ 4 3 0 40).
  - repeat split; try (vm_compute; done); lia.
  - repeat split; try (vm_compute; done); lia.
  - vm_compute. discriminate.
  - lia.
Defined.

(** C2: the score of the absent entry is -1, strictly below the score of
    every ranked entry (known tier, non-negative league points). *)
Theorem absent_scores_lowest e r lp :
  ranked e r lp →
  ∃ sa se,
    score_for_sort None = Ok sa ∧ score_for_sort (Some e) = Ok se ∧ sa < se.
Proof.
  intros He. destruct (score_ranked _ _ _ He) as (dv & Hdv & ->).
  destruct He as (Hr & _ & Hlp & _). unfold tier_rank in Hr.
  destruct (e !! ustr "tier") as [[| | |t| |]|]; try done.
  apply tier_table in Hr as [Hr _].
  eexists _, _. split; [done|]. split; [done|].
  destruct (apex r); nia.
Qed.

Lemma absent_scores_lowest_witness :
  ∃ sa se,
    score_for_sort None = Ok sa
    ∧ score_for_sort (Some (rank_entry "IRON" "IV" 0)) = Ok se
    ∧ sa < se.
Proof.
  apply (absent_scores_lowest _ 0 0).
  repeat split; try (vm_compute; done); lia.
Defined.

(** An unknown division falls back to the lowest division rank. *)
Lemma unknown_division_scores_lowest e r lp s :
  ranked e r lp →
  e !! ustr "rank" = Some (VStr s) →
  DIV_ORDER !! s = None →
  score_for_sort (Some e)
  = Ok (if apex r then r * 4000 + lp else r * 400 + lp).
Proof.
  intros (Hr & Hlp & _ & _) Hs Hnone.
  unfold tier_rank in Hr. unfold league_points in Hlp. unfold score_for_sort.
  destruct (e !! ustr "tier") as [[| | |t| |]|] eqn:Htier; try done.
  rewrite (truthy_lookup _ _ _ Htier). simpl negb. cbv iota.
  destruct (e !! ustr "leaguePoints") as [[| |z| | |]|]; try done.
  injection Hlp as ->. rewrite Hs.
  destruct (tier_table _ _ Hr) as [_ Hap]. simpl default. rewrite Hap.
  destruct (apex r); simpl; rewrite Hr; simpl; [done|].
  rewrite Hnone. simpl. do 2 f_equal. lia.
Qed.

(** An unknown tier string makes the score computation raise. *)
Lemma unknown_tier_raises (e : entry) t :
  e !! ustr "tier" = Some (VStr t) →
  TIER_ORDER !! t = None →
  score_for_sort (Some e) = Raise KeyError.
Proof.
  intros Htier Hnone. unfold score_for_sort.
  rewrite (truthy_lookup _ _ _ Htier), Htier. simpl.
  assert (in_apex (VStr t) = false) as ->.
  { unfold in_apex, eq_str.
    repeat (case_bool_decide;
            [subst t; vm_compute in Hnone; discriminate|]).
    done. }
  by rewrite Hnone.
Qed.

(** An unknown tier string does not stop the label. *)
Lemma unknown_tier_label (str_title : pystr → pystr)
    (format_other : value → pystr) (e : entry) t :
  e !! ustr "tier" = Some (VStr t) →
  is_ok (compact_rank str_title format_other (Some e)) = true.
Proof.
  intros Htier. unfold compact_rank.
  rewrite (truthy_lookup _ _ _ Htier), Htier. simpl negb. cbv iota.
  by destruct (in_apex (VStr t)).
Qed.

(** C4: on the entry [{"tier": "WOOD", "rank": "I", "leaguePoints": 10}],
    whose tier is not in the table, [score_for_sort] raises [KeyError]
    and with it [sort_snapshot] on every snapshot that holds the entry;
    the label of the entry is computed, and the unknown division of
    [{"tier": "GOLD", "rank": "V", "leaguePoints": 10}] falls back to
    rank 0. *)
Theorem unknown_tier_crashes_score :
  score_for_sort (Some (rank_entry "WOOD" "I" 10)) = Raise KeyError
  ∧ sort_snapshot [(ustr "A", Some (rank_entry "WOOD" "I" 10))] = Raise KeyError
  ∧ (∀ (str_title : pystr → pystr) (format_other : value → pystr),
       is_ok (compact_rank str_title format_other
                (Some (rank_entry "WOOD" "I" 10))) = true)
  ∧ score_for_sort (Some (rank_entry "GOLD" "V" 10)) = Ok 1210.
Proof.
  split; [vm_compute; reflexivity|].
  split; [vm_compute; reflexivity|].
  split; [|vm_compute; reflexivity].
  intros str_title format_other.
  by apply (unknown_tier_label _ _ _ (ustr "WOOD")).
Qed.

(** ** Sorting *)

Section Sorting.
Context {A : Type}.
Implicit Types (x y : Z * A) (l m : list (Z * A)).

Lemma insert_asc_perm x l : insert_asc x l ≡ₚ x :: l.
Proof.
  induction l as [|y l IH]; simpl; [done|].
  destruct (x.1 <=? y.1); [done|]. rewrite IH. apply Permutation_swap.
Qed.

Lemma sort_asc_perm l : sort_asc l ≡ₚ l.
Proof.
  induction l as [|x l IH]; simpl; [done|].
  by rewrite insert_asc_perm, IH.
Qed.

Lemma insert_asc_sorted x l :
  Sorted (λ a b, a.1 ≤ b.1) l → Sorted (λ a b, a.1 ≤ b.1) (insert_asc x l).
Proof.
  induction 1 as [|y l Hl IH Hhd]; simpl; [by repeat constructor|].
  destruct (x.1 <=? y.1) eqn:Hxy.
  - apply Z.leb_le in Hxy. by repeat constructor.
  - apply Z.leb_gt in Hxy. constructor; [done|].
    destruct Hhd as [|z l' Hz]; simpl.
    + constructor. lia.
    + destruct (x.1 <=? z.1); constructor; [lia|done].
Qed.

Lemma sort_asc_sorted l : Sorted (λ a b, a.1 ≤ b.1) (sort_asc l).
Proof.
  induction l; simpl; [constructor|by apply insert_asc_sorted].
Qed.

(** Insertion goes past smaller keys only, so the items with a given key
    keep their order. *)
Lemma insert_asc_filter k x l :
  filter (λ y, y.1 = k) (insert_asc x l) = filter (λ y, y.1 = k) (x :: l).
Proof.
  induction l as [|y l IH]; simpl; [done|].
  destruct (x.1 <=? y.1) eqn:Hxy; [done|]. apply Z.leb_gt in Hxy.
  rewrite (filter_cons _ y (insert_asc _ _)), IH, !filter_cons.
  repeat case_decide; try done; lia.
Qed.

Lemma sort_asc_filter k l :
  filter (λ y, y.1 = k) (sort_asc l) = filter (λ y, y.1 = k) l.
Proof.
  induction l as [|x l IH]; simpl; [done|].
  by rewrite insert_asc_filter, !filter_cons, IH.
Qed.

Lemma sort_desc_filter k l :
  filter (λ y, y.1 = k) (reverse (sort_asc (reverse l))) = filter (λ y, y.1 = k) l.
Proof.
  by rewrite filter_reverse, sort_asc_filter, filter_reverse, reverse_involutive.
Qed.

Lemma sort_desc_sorted l :
  StronglySorted (λ a b, b.1 ≤ a.1) (reverse (sort_asc (reverse l))).
Proof.
  apply Sorted_StronglySorted; [intros a b c; lia|].
  apply (Sorted_reverse (λ a b, a.1 ≤ b.1)), sort_asc_sorted.
Qed.

Lemma sort_desc_perm l : reverse (sort_asc (reverse l)) ≡ₚ l.
Proof. by rewrite reverse_Permutation, sort_asc_perm, reverse_Permutation. Qed.
End Sorting.

Section SortedRows.
Context {A : Type} (key : A → result Z).
Implicit Types (x y : A) (l rows : list A) (m : list (Z * A)).

Lemma mapM_keys l :
  Forall (λ x, is_ok (key x) = true) l →
  ∃ m, mapM (λ x, k ← key x; mret (k, x)) l = Ok m
       ∧ m.*2 = l ∧ Forall (λ p, key p.2 = Ok p.1) m.
Proof.
  induction 1 as [|x l Hx _ (m & Hm & Hl & Hkeys)]; simpl.
  - by exists [].
  - destruct (key x) as [k|] eqn:Hk; [|done].
    exists ((k, x) :: m). rewrite Hm. split; [done|].
    split; [by rewrite fmap_cons, Hl|by constructor].
Qed.

Lemma tied_keyed k m :
  Forall (λ p, key p.2 = Ok p.1) m →
  tied key k (m.*2) = (filter (λ p, p.1 = k) m).*2.
Proof.
  unfold tied. induction 1 as [|y m Hy _ IH]; [done|].
  rewrite fmap_cons, !filter_cons, IH, Hy.
  repeat case_decide; simplify_eq; done.
Qed.

Lemma descend_keyed m :
  Forall (λ p, key p.2 = Ok p.1) m →
  StronglySorted (λ a b, b.1 ≤ a.1) m →
  StronglySorted (scores_descend key) (m.*2).
Proof.
  intros Hkeys. induction 1 as [|y m _ IH Hall]; [constructor|].
  apply Forall_cons in Hkeys as [Hy Hkeys].
  rewrite fmap_cons. constructor; [by apply IH|].
  apply Forall_fmap, Forall_forall. intros z Hz. simpl.
  exists y.1, z.1. rewrite Forall_forall in Hall, Hkeys. auto.
Qed.

(** What [sorted(l, key=key, reverse=True)] returns when every key is
    defined: the items in descending key order, ties in the order of [l]. *)
Lemma py_sorted_stable l :
  Forall (λ x, is_ok (key x) = true) l →
  ∃ rows, py_sorted key true l = Ok rows
          ∧ rows ≡ₚ l
          ∧ StronglySorted (scores_descend key) rows
          ∧ ∀ k, tied key k rows = tied key k l.
Proof.
  intros Hl. destruct (mapM_keys l Hl) as (m & Hm & <- & Hkeys).
  exists (reverse (sort_asc (reverse m))).*2. unfold py_sorted. rewrite Hm.
  assert (Forall (λ p, key p.2 = Ok p.1) (reverse (sort_asc (reverse m)))).
  { by rewrite sort_desc_perm. }
  repeat split.
  - by rewrite sort_desc_perm.
  - apply descend_keyed; [done|apply sort_desc_sorted].
  - intros k. by rewrite !tied_keyed, sort_desc_filter.
Qed.

Lemma filter_sublist_mono (P : A → Prop) `{!∀ x, Decision (P x)} l1 l2 :
  l1 `sublist_of` l2 → filter P l1 `sublist_of` filter P l2.
Proof.
  induction 1 as [|x l1 l2 _ IH|x l1 l2 _ IH]; [done| |];
    rewrite ?filter_cons; case_decide;
    auto using sublist_skip, sublist_cons.
Qed.

Lemma tied_before l rows x y k :
  tied key k rows = tied key k l →
  key x = Ok k → key y = Ok k →
  before x y l → before x y rows.
Proof.
  unfold before, tied. intros Heq Hx Hy Hb.
  apply (filter_sublist_mono (λ z, key z = Ok k)) in Hb.
  rewrite !filter_cons, filter_nil, !decide_True in Hb by done.
  etrans; [done|]. rewrite <-Heq. apply sublist_filter.
Qed.

(** There is one descending arrangement with the ties in a given order. *)
Lemma stable_descending_unique l1 l2 :
  Forall (λ x, is_ok (key x) = true) l1 →
  Forall (λ x, is_ok (key x) = true) l2 →
  StronglySorted (scores_descend key) l1 →
  StronglySorted (scores_descend key) l2 →
  (∀ k, tied key k l1 = tied key k l2) →
  l1 = l2.
Proof.
  intros Hok1. revert l2.
  induction Hok1 as [|x l1 Hx Hok1 IH]; intros l2 Hok2 Hs1 Hs2 Hties.
  - destruct Hok2 as [|y l2 Hy _]; [done|].
    destruct (key y) as [k|] eqn:Hk; [|done].
    specialize (Hties k). unfold tied in Hties.
    by rewrite filter_nil, filter_cons, decide_True in Hties.
  - destruct (key x) as [kx|] eqn:Hkx; [|done].
    pose proof (Hties kx) as Hx2. unfold tied in Hx2.
    rewrite filter_cons, decide_True in Hx2 by done.
    destruct Hok2 as [|y l2 Hy Hok2].
    { by rewrite filter_nil in Hx2. }
    destruct (key y) as [ky|] eqn:Hky; [|done].
    apply StronglySorted_cons in Hs1 as [Hall1 Hs1].
    apply StronglySorted_cons in Hs2 as [Hall2 Hs2].
    assert (kx ≤ ky) as Hle1.
    { assert (x ∈ y :: l2) as Hin.
      { eapply (list_elem_of_filter (λ z, key z = Ok kx)).
        rewrite <-Hx2. left. }
      apply elem_of_cons in Hin as [->|Hin]; [assert (kx = ky) by congruence; lia|].
      rewrite Forall_forall in Hall2.
      destruct (Hall2 _ Hin) as (a & b & Ha & Hb & Hab).
      assert (a = ky) by congruence. assert (b = kx) by congruence. lia. }
    assert (ky ≤ kx) as Hle2.
    { assert (y ∈ x :: l1) as Hin.
      { eapply (list_elem_of_filter (λ z, key z = Ok ky)).
        fold (tied key ky (x :: l1)). rewrite (Hties ky). unfold tied.
        rewrite filter_cons, decide_True by done. left. }
      apply elem_of_cons in Hin as [->|Hin]; [assert (kx = ky) by congruence; lia|].
      rewrite Forall_forall in Hall1.
      destruct (Hall1 _ Hin) as (a & b & Ha & Hb & Hab).
      assert (a = kx) by congruence. assert (b = ky) by congruence. lia. }
    assert (ky = kx) as -> by lia.
    rewrite filter_cons, decide_True in Hx2 by done.
    injection Hx2 as <- Htl. f_equal.
    apply IH; [done..|]. intros k. specialize (Hties k). unfold tied in *.
    rewrite !filter_cons in Hties.
    case_decide; [by simplify_eq|done].
Qed.
End SortedRows.

(** C3: on a snapshot whose entries all have a score, [sort_snapshot]
    returns the rows in descending score order, and two rows with equal
    scores are in the same relative order in the output as in the
    snapshot (whose order is the roster's).  The output is determined by
    the snapshot: it is the only descending arrangement of its rows that
    keeps the ties in order. *)
Theorem sort_snapshot_stable (snap : odict (option entry)) :
  Forall (λ row, is_ok (order_key row) = true) snap →
  ∃ rows,
    sort_snapshot snap = Ok rows
    ∧ rows ≡ₚ snap
    ∧ StronglySorted (scores_descend order_key) rows
    ∧ (∀ x y, order_key x = order_key y →
              (before x y snap ↔ before x y rows))
    ∧ (∀ k, tied order_key k rows = tied order_key k snap)
    ∧ (∀ rows',
         rows' ≡ₚ snap →
         StronglySorted (scores_descend order_key) rows' →
         (∀ k, tied order_key k rows' = tied order_key k snap) →
         rows' = rows).
Proof.
  intros Hok.
  destruct (py_sorted_stable order_key snap Hok)
    as (rows & Hrows & Hperm & Hsorted & Hties).
  exists rows. split; [done|]. split; [done|]. split; [done|].
  assert (Forall (λ row, is_ok (order_key row) = true) rows) as Hok'.
  { by rewrite Hperm. }
  split; [|split; [done|]].
  - intros x y Hxy. split; intros Hb.
    + assert (x ∈ snap) as Hx.
      { eapply elem_of_sublist; [|exact Hb]. left. }
      rewrite Forall_forall in Hok. specialize (Hok x Hx).
      destruct (order_key x) as [k|] eqn:Hk; [|done].
      by apply (tied_before order_key snap rows x y k).
    + assert (x ∈ rows) as Hx.
      { eapply elem_of_sublist; [|exact Hb]. left. }
      rewrite Forall_forall in Hok'. specialize (Hok' x Hx).
      destruct (order_key x) as [k|] eqn:Hk; [|done].
      by apply (tied_before order_key rows snap x y k).
  - intros rows' Hperm' Hsorted' Hties'.
    apply (stable_descending_unique order_key); [|done..|].
    + by rewrite Hperm'.
    + intros k. by rewrite Hties, Hties'.
Qed.

Lemma sort_snapshot_stable_witness :
  ∃ rows,
    sort_snapshot example_snapshot = Ok rows
    ∧ rows.*1 = [ustr "C"; ustr "B"; ustr "A"; ustr "D"].
Proof.
  destruct (sort_snapshot_stable example_snapshot) as (rows & Hrows & _).
  - repeat (constructor; [vm_compute; reflexivity|]). constructor.
  - exists rows. split; [done|].
    vm_compute in Hrows. injection Hrows as <-. vm_compute. reflexivity.
Defined.

(** ** The rate-limit-aware GET *)

Section Client.
Variable format_other : value → pystr.
Variable py_float : pystr → option Q.
Variable remote : nat → http_outcome.

#[local] Abbreviation attempt := (attempt py_float remote).
#[local] Abbreviation get_loop := (get_loop py_float remote).
#[local] Abbreviation _get := (_get py_float remote).

(** One guarded attempt either asks for another one, after a 429 and a
    sleep, or ends the call. *)
Lemma attempt_cases url i w :
  (∃ r q, remote (requests w) = Responds r ∧ status r = 429
          ∧ retry_wait py_float r i = Ok q
          ∧ try_except (attempt url i) (λ _, mret (Return VNone)) w
            = (Ok Continue, slept q (requested url w)))
  ∨ (∃ v, try_except (attempt url i) (λ _, mret (Return VNone)) w
          = (Ok (Return v), requested url w)
          ∧ (v = VNone ∨ delivers (remote (requests w)) v)).
Proof.
  unfold try_except, attempt, session_get, mbind, io_bind, delivers.
  fold (requested url w).
  destruct (remote (requests w)) as [| |r] eqn:Hr;
    [right; exists VNone; auto..|].
  destruct (status r =? 429) eqn:H429.
  { apply Z.eqb_eq in H429. unfold lift.
    destruct (retry_wait py_float r i) as [q|] eqn:Hq.
    - left. by exists r, q.
    - right. exists VNone. auto. }
  case_bool_decide; [right; exists VNone; auto|].
  destruct (400 <=? status r) eqn:H400; [right; exists VNone; auto|].
  apply Z.leb_gt in H400.
  destruct (json r) as [v|] eqn:Hv; right; [exists v|exists VNone]; auto.
Qed.
(** The whole retry loop: it returns, it asks for [url] only and at most
    once per attempt, it leaves the roster alone, and what it returns is
    [None] or the body of a response to one of its requests. *)
Lemma get_loop_spec url attempts w :
  ∃ v w' evs,
    get_loop url attempts w = (Ok v, w')
    ∧ trace w' = trace w ++ evs
    ∧ Forall (λ u, u = url) (gets evs)
    ∧ (attempts = [] ∨ head evs = Some (Get url))
    ∧ Forall (λ e, ∀ m, e ≠ Send m) evs
    ∧ requests w' = (requests w + length (gets evs))%nat
    ∧ (length (gets evs) ≤ length attempts)%nat
    ∧ writes w' = writes w ∧ data w' = data w ∧ file w' = file w
    ∧ (v = VNone
       ∨ ∃ n, (requests w ≤ n < requests w')%nat ∧ delivers (remote n) v).
Proof.
  revert w. induction attempts as [|i rest IH]; intros w.
  - exists VNone, w, []. rewrite app_nil_r. simpl.
    repeat split; auto with lia.
  - cbn [get_loop]. unfold mbind at 1. unfold io_bind.
    destruct (attempt_cases url i w) as [(r & q & Hr & _ & _ & ->)|(v & -> & Hv)].
    + destruct (IH (slept q (requested url w)))
        as (v & w' & evs & -> & Htr & Hurl & _ & Hsend & Hreq & Hlen & Hw & Hd & Hf & Hv).
      exists v, w', (Get url :: Sleep q :: evs).
      split; [done|]. simpl in *.
      split; [by rewrite Htr, <-!app_assoc|].
      split; [by constructor|].
      split; [by right|].
      split; [by repeat constructor|].
      repeat split; try done; try lia.
      destruct Hv as [->|(n & Hn & Hdel)]; [by left|right].
      exists n. split; [lia|done].
    + exists v, (requested url w), [Get url]. simpl.
      split; [done|]. split; [done|].
      split; [by repeat constructor|].
      split; [by right|].
      split; [by repeat constructor|].
      repeat split; try done; try lia.
      destruct Hv as [->|Hdel]; [by left|right].
      exists (requests w). split; [lia|done].
Qed.

Lemma get_entered key url tries w :
  _get (Client key true) url tries w = get_loop url (seqZ 0 tries) w.
Proof. done. Qed.

Lemma league_entries_spec key puuid w :
  ∃ v w',
    league_entries_by_puuid_euw py_float format_other remote
      (Client key true) puuid w = (Ok v, w')
    ∧ (requests w ≤ requests w' ≤ requests w + 2)%nat
    ∧ (v = VList []
       ∨ truthy v = true
         ∧ ∃ n, (requests w ≤ n < requests w')%nat ∧ delivers (remote n) v).
Proof.
  unfold league_entries_by_puuid_euw.
  set (url := league_url _ _).
  unfold mbind, io_bind. rewrite get_entered.
  destruct (get_loop_spec url (seqZ 0 2) w)
    as (v & w' & evs & -> & _ & _ & _ & _ & Hreq & Hlen & _ & _ & _ & Hv).
  exists (if truthy v then v else VList []), w'.
  split; [done|]. split; [simpl in Hlen; lia|].
  destruct Hv as [->|(n & Hn & Hdel)]; [by auto|].
  destruct (truthy v) eqn:Htruthy; [|by auto].
  right; eauto.
Qed.

(** C7: when the first response to a [_get] with the bound of 2 attempts
    is a 429, the client sleeps (3 seconds for [Retry-After: 3], the
    fallback [max(1.5 * 1, 2.0) = 2] seconds without the header), asks
    once more and then stops: a second failure gives [None].  For every
    bound, the requests of a call are at most as many as the bound. *)
Theorem rate_limited_get_retries_once key url w r wait :
  remote (requests w) = Responds r →
  status r = 429 →
  (retry_after r = Some (ustr "3") ∧ py_float (ustr "3") = Some 3%Q ∧ wait = 3%Q)
  ∨ (retry_after r = None ∧ wait = 2%Q) →
  (∃ v w' rest,
     _get (Client key true) url 2 w = (Ok v, w')
     ∧ trace w' = trace w ++ [Get url; Sleep wait; Get url] ++ rest
     ∧ gets rest = []
     ∧ requests w' = (requests w + 2)%nat
     ∧ (v = VNone ∨ delivers (remote (S (requests w))) v))
  ∧ (∀ tries w0, ∃ v w' evs,
       _get (Client key true) url tries w0 = (Ok v, w')
       ∧ trace w' = trace w0 ++ evs
       ∧ length (gets evs) = (requests w' - requests w0)%nat
       ∧ (length (gets evs) ≤ Z.to_nat tries)%nat).
Proof.
  intros Hr H429 Hwait. split.
  - assert (retry_wait py_float r 0 = Ok wait) as Hq.
    { unfold retry_wait.
      destruct Hwait as [(-> & -> & ->)|(-> & ->)]; done. }
    rewrite get_entered.
    change (seqZ 0 2) with [0; 1]. cbn [get_loop].
    unfold mbind at 1. unfold io_bind at 1.
    destruct (attempt_cases url 0 w) as [(r' & q & Hr' & _ & Hq' & ->)|(v & Hv & _)].
    2:{ exfalso. revert Hv.
        unfold try_except, attempt, session_get, mbind, io_bind, lift.
        rewrite Hr, H429, Hq. simpl. discriminate. }
    assert (q = wait) as -> by congruence.
    set (w1 := slept wait (requested url w)).
    unfold mbind at 1. unfold io_bind at 1.
    destruct (attempt_cases url 1 w1) as [(r2 & q2 & _ & _ & _ & ->)|(v & -> & Hv)].
    + exists VNone, (slept q2 (requested url w1)), [Sleep q2]. simpl.
      split; [done|]. split; [by rewrite <-!app_assoc|].
      split; [done|]. split; [lia|by left].
    + exists v, (requested url w1), []. simpl.
      split; [done|]. split; [by rewrite <-!app_assoc|].
      split; [done|]. split; [lia|done].
  - intros tries w0. rewrite get_entered.
    destruct (get_loop_spec url (seqZ 0 tries) w0)
      as (v & w' & evs & -> & Htr & _ & _ & _ & Hreq & Hlen & _).
    exists v, w', evs. rewrite length_seqZ in Hlen.
    repeat split; try done; lia.
Qed.
End Client.


(** ** Strings *)

Lemma isspace_hash : isspace hash = false.
Proof. reflexivity. Qed.

Lemma lstrip_head s c : head (lstrip s) = Some c → isspace c = false.
Proof.
  induction s as [|x s IH]; simpl; [done|].
  destruct (isspace x) eqn:Hx; [done|]. simpl. by intros [= <-].
Qed.

Lemma lstrip_idemp s : lstrip (lstrip s) = lstrip s.
Proof.
  induction s as [|x s IH]; simpl; [done|].
  destruct (isspace x) eqn:Hx; [done|]. simpl. by rewrite Hx.
Qed.

Lemma lstrip_nonspace c s : isspace c = false → lstrip (c :: s) = c :: s.
Proof. intros Hc. simpl. by rewrite Hc. Qed.

(** Stripping on the left stops at the first character that is not
    whitespace. *)
Lemma lstrip_app a c b :
  isspace c = false → lstrip (a ++ c :: b) = lstrip a ++ c :: b.
Proof.
  intros Hc. induction a as [|x a IH]; simpl; [by rewrite Hc|].
  by destruct (isspace x).
Qed.

Lemma lstrip_snoc s c :
  lstrip (s ++ [c])
  = match lstrip s with
    | [] => if isspace c then [] else [c]
    | t => t ++ [c]
    end.
Proof.
  induction s as [|x s IH]; simpl; [done|].
  by destruct (isspace x).
Qed.

Lemma rstrip_cons c s :
  rstrip (c :: s)
  = match rstrip s with
    | [] => if isspace c then [] else [c]
    | t => c :: t
    end.
Proof.
  unfold rstrip. rewrite reverse_cons, lstrip_snoc.
  destruct (lstrip (reverse s)) as [|y t] eqn:Ht.
  - rewrite reverse_nil. by destruct (isspace c).
  - rewrite reverse_app, reverse_singleton. simpl.
    destruct (reverse (y :: t)) eqn:Hrev; [|done].
    apply (f_equal reverse) in Hrev. rewrite reverse_involutive in Hrev.
    by rewrite reverse_nil in Hrev.
Qed.

Lemma rstrip_app a c b :
  isspace c = false → rstrip (a ++ c :: b) = a ++ c :: rstrip b.
Proof.
  intros Hc. unfold rstrip.
  rewrite reverse_app, reverse_cons, <-app_assoc. simpl.
  rewrite lstrip_app by done.
  by rewrite reverse_app, reverse_cons, reverse_involutive, <-app_assoc.
Qed.

Lemma rstrip_idemp s : rstrip (rstrip s) = rstrip s.
Proof. unfold rstrip. by rewrite reverse_involutive, lstrip_idemp. Qed.

Lemma rstrip_last s c : last (rstrip s) = Some c → isspace c = false.
Proof.
  unfold rstrip. rewrite last_reverse. apply lstrip_head.
Qed.

Lemma lstrip_rstrip s : lstrip (rstrip s) = rstrip (lstrip s).
Proof.
  induction s as [|c s IH]; [done|].
  rewrite rstrip_cons. simpl lstrip at 2.
  destruct (isspace c) eqn:Hc.
  - destruct (rstrip s) as [|y t] eqn:Hs.
    + rewrite <-IH. done.
    + rewrite <-IH. simpl. by rewrite Hc.
  - rewrite rstrip_cons.
    destruct (rstrip s); rewrite ?Hc; by apply lstrip_nonspace.
Qed.

Lemma strip_lstrip s : strip (lstrip s) = strip s.
Proof. unfold strip. by rewrite lstrip_idemp. Qed.

Lemma strip_rstrip s : strip (rstrip s) = strip s.
Proof. unfold strip. by rewrite lstrip_rstrip, rstrip_idemp. Qed.

Lemma strip_stripped s : stripped (strip s).
Proof.
  split; intros c.
  - unfold strip. rewrite <-lstrip_rstrip. apply lstrip_head.
  - apply rstrip_last.
Qed.

(** Stripping keeps every character that is not whitespace. *)
Lemma elem_of_lstrip c s : isspace c = false → c ∈ lstrip s ↔ c ∈ s.
Proof.
  intros Hc. induction s as [|x s IH]; simpl; [done|].
  destruct (isspace x) eqn:Hx; [|done].
  rewrite IH, elem_of_cons. split; [auto|].
  intros [->|?]; [congruence|done].
Qed.

Lemma elem_of_strip c s : isspace c = false → c ∈ strip s ↔ c ∈ s.
Proof.
  intros Hc. unfold strip, rstrip.
  by rewrite elem_of_reverse, elem_of_lstrip, elem_of_reverse, elem_of_lstrip.
Qed.

Lemma split1_first c a b : c ∉ a → split1 c (a ++ c :: b) = (a, b).
Proof.
  induction a as [|x a IH]; simpl; intros Hc.
  - by rewrite bool_decide_eq_true_2.
  - apply not_elem_of_cons in Hc as [Hx Hc].
    rewrite bool_decide_eq_false_2 by done. by rewrite IH.
Qed.

(** A string with the character [c] splits at the first one. *)
Lemma first_occurrence (c : N) s :
  c ∈ s → ∃ a b, s = a ++ c :: b ∧ c ∉ a.
Proof.
  induction s as [|x s IH]; intros Hc; [by apply elem_of_nil in Hc|].
  destruct (decide (x = c)) as [->|Hx].
  - exists [], s. split; [done|]. apply not_elem_of_nil.
  - apply elem_of_cons in Hc as [->|Hc]; [done|].
    destruct (IH Hc) as (a & b & -> & Ha).
    exists (x :: a), b. split; [done|].
    apply not_elem_of_cons. auto.
Qed.

(** ** Identity resolution *)

Section Identity.
Variable normalize_nfc : pystr → pystr.
Variable quote : pystr → pystr.
Variable py_float : pystr → option Q.
Variable remote : nat → http_outcome.

(** Two facts of Unicode normalisation: U+0023 has no canonical
    decomposition and is in none, and it is a starter that composes with
    nothing, so NFC neither creates a ['#'] nor works across one. *)
Hypothesis nfc_hash_new : ∀ s, hash ∈ normalize_nfc s → hash ∈ s.
Hypothesis nfc_hash_inert : ∀ a b,
  normalize_nfc (a ++ hash :: b) = normalize_nfc a ++ hash :: normalize_nfc b.

#[local] Abbreviation split_riot_id := (split_riot_id normalize_nfc).
#[local] Abbreviation resolve_puuid_from_riot_id :=
  (resolve_puuid_from_riot_id normalize_nfc quote py_float remote).
#[local] Abbreviation account_url := (account_url quote).

Lemma split_riot_id_no_hash s :
  hash ∉ normalize_nfc s →
  split_riot_id s = (sanitize_user_key normalize_nfc s, None).
Proof.
  intros Hs. unfold split_riot_id, contains, sanitize_user_key.
  rewrite bool_decide_eq_false_2; [done|].
  by rewrite elem_of_strip.
Qed.

Lemma split_riot_id_parts s a b :
  normalize_nfc s = a ++ hash :: b → hash ∉ a →
  split_riot_id s = (strip a, Some (strip b)).
Proof.
  intros Hs Ha. unfold split_riot_id, contains, sanitize_user_key.
  assert (strip (a ++ hash :: b) = lstrip a ++ hash :: rstrip b) as Hstrip.
  { unfold strip. by rewrite lstrip_app, rstrip_app. }
  rewrite Hs, Hstrip.
  rewrite bool_decide_eq_true_2 by (apply elem_of_app; right; left).
  rewrite split1_first by (by rewrite elem_of_lstrip).
  by rewrite strip_lstrip, strip_rstrip.
Qed.

Lemma nfc_hash s : hash ∈ s → hash ∈ normalize_nfc s.
Proof.
  intros (a & b & -> & _)%first_occurrence.
  rewrite nfc_hash_inert. apply elem_of_app. right. left.
Qed.

(** With a tag, the resolver asks the account service, for the URL made
    of the two parts, once or twice, and for nothing else. *)
Lemma resolve_requests riot_id key w game tag :
  split_riot_id riot_id = (game, Some tag) → tag ≠ [] →
  ∃ r w' evs,
    resolve_puuid_from_riot_id riot_id key w = (r, w')
    ∧ trace w' = trace w ++ Get (account_url game tag) :: evs
    ∧ Forall (λ u, u = account_url game tag) (gets evs).
Proof.
  intros Hsplit Htag. unfold resolve_puuid_from_riot_id.
  rewrite Hsplit. destruct tag as [|c tag]; [done|].
  change (negb (truthy (VStr (c :: tag)))) with false. cbv iota.
  unfold with_client, account_by_riot_id_eu, mbind, io_bind.
  rewrite get_entered.
  destruct (get_loop_spec py_float remote (account_url game (c :: tag)) (seqZ 0 2) w)
    as (v & w' & evs & -> & Htr & Hurl & Hhd & _).
  destruct Hhd as [|Hhd]; [done|].
  destruct evs as [|e evs]; [done|]. injection Hhd as ->.
  exists (puuid_of v), w', evs. split; [by destruct (puuid_of v)|].
  split; [done|]. by apply Forall_cons in Hurl as [_ ?].
Qed.

(** C5: an identity without ['#'] resolves to [None] and leaves the
    world as it was, so no request is made; an identity with ['#'] is
    split at the first one into two parts that are stripped of
    surrounding whitespace, and every request of the resolution is for
    the account URL made of these two parts. *)
Theorem resolve_validates_identity riot_id key w :
  (hash ∉ riot_id →
   resolve_puuid_from_riot_id riot_id key w = (Ok VNone, w))
  ∧ (hash ∈ riot_id →
     ∃ a b,
       normalize_nfc riot_id = a ++ hash :: b ∧ (hash ∉ a)
       ∧ split_riot_id riot_id = (strip a, Some (strip b))
       ∧ stripped (strip a) ∧ stripped (strip b)
       ∧ ∃ r w' evs,
           resolve_puuid_from_riot_id riot_id key w = (r, w')
           ∧ trace w' = trace w ++ evs
           ∧ Forall (λ u, u = account_url (strip a) (strip b)) (gets evs)).
Proof.
  split; intros Hhash.
  - unfold resolve_puuid_from_riot_id.
    rewrite split_riot_id_no_hash; [done|]. eauto.
  - destruct (first_occurrence hash (normalize_nfc riot_id)) as (a & b & Hs & Ha).
    { by apply nfc_hash. }
    exists a, b. pose proof (split_riot_id_parts _ _ _ Hs Ha) as Hsplit.
    repeat (split; [done || apply strip_stripped|]).
    destruct (strip b) as [|c tag] eqn:Htag.
    + exists (Ok VNone), w, []. rewrite app_nil_r.
      unfold resolve_puuid_from_riot_id. by rewrite Hsplit.
    + destruct (resolve_requests riot_id key w _ _ Hsplit)
        as (r & w' & evs & Hres & Htr & Hurl); [done|].
      exists r, w', (Get (account_url (strip a) (c :: tag)) :: evs).
      split; [done|]. split; [done|]. by constructor.
Qed.

(** C10: an identity with more than one ['#'], that is the text [a]
    without ['#'], a ['#'], and a text [b] with a further ['#'], is split
    at the first ['#']: the name is [a] and the tag is [b], each
    normalised and stripped.  The tag is not empty, so the identity is
    not rejected: the account service is asked for these two parts. *)
Theorem split_at_first_hash a b key w :
  hash ∉ a → hash ∈ b →
  split_riot_id (a ++ hash :: b)
  = (strip (normalize_nfc a), Some (strip (normalize_nfc b)))
  ∧ hash ∈ strip (normalize_nfc b)
  ∧ ∃ r w' evs,
      resolve_puuid_from_riot_id (a ++ hash :: b) key w = (r, w')
      ∧ trace w' = trace w
          ++ Get (account_url (strip (normalize_nfc a)) (strip (normalize_nfc b)))
          :: evs.
Proof.
  intros Ha Hb.
  assert (split_riot_id (a ++ hash :: b)
          = (strip (normalize_nfc a), Some (strip (normalize_nfc b)))) as Hsplit.
  { apply split_riot_id_parts; [apply nfc_hash_inert|]. eauto. }
  assert (hash ∈ strip (normalize_nfc b)) as Htag.
  { by apply elem_of_strip, nfc_hash. }
  split; [done|]. split; [done|].
  destruct (resolve_requests (a ++ hash :: b) key w _ _ Hsplit)
    as (r & w' & evs & Hres & Htr & _).
  { intros Hnil. rewrite Hnil in Htag. by apply elem_of_nil in Htag. }
  by exists r, w', evs.
Qed.
End Identity.

(** ** Snapshots *)

Lemma od_set_fresh {V} (k : pystr) (v : V) (d : odict V) :
  k ∉ keys d → od_set k v d = d ++ [(k, v)].
Proof.
  unfold keys. induction d as [|[k' v'] d IH]; simpl; intros Hk; [done|].
  apply not_elem_of_cons in Hk as [Hne Hk].
  rewrite bool_decide_eq_false_2 by done. by rewrite IH.
Qed.

Lemma first_match_some l queue d :
  first_match l queue = Ok (Some d) →
  VDict d ∈ l ∧ d !! ustr "queueType" = Some (VStr queue).
Proof.
  induction l as [|v l IH]; simpl; [done|].
  destruct v as [| | | | |d']; try done.
  destruct (eq_str _ queue) eqn:Heq.
  - intros [= ->]. split; [left|].
    unfold eq_str in Heq.
    destruct (d !! ustr "queueType") as [[| | |s| |]|]; try done.
    by apply bool_decide_eq_true in Heq as ->.
  - intros [Hin Hq]%IH. split; [by right|done].
Qed.

Lemma first_match_none l queue :
  (∀ d, VDict d ∈ l → d !! ustr "queueType" ≠ Some (VStr queue)) →
  first_match l queue = Ok None ∨ ∃ e, first_match l queue = Raise e.
Proof.
  induction l as [|v l IH]; simpl; intros Hl; [by left|].
  destruct v as [| | | | |d]; try (right; eauto; fail).
  destruct (eq_str _ queue) eqn:Heq.
  - exfalso. apply (Hl d); [left|]. unfold eq_str in Heq.
    destruct (d !! ustr "queueType") as [[| | |s| |]|]; try done.
    by apply bool_decide_eq_true in Heq as ->.
  - apply IH. intros d' Hd'. apply Hl. by right.
Qed.

Section Snapshot.
Variable py_float : pystr → option Q.
Variable format_other : value → pystr.
Variable remote : nat → http_outcome.

#[local] Abbreviation league_entries_by_puuid_euw :=
  (league_entries_by_puuid_euw py_float format_other remote).
#[local] Abbreviation snapshot_loop := (snapshot_loop py_float format_other remote).
#[local] Abbreviation fetch_snapshot := (fetch_snapshot py_float format_other remote).
#[local] Abbreviation snapshot_row := (snapshot_row py_float format_other remote).
#[local] Abbreviation world_after_record :=
  (world_after_record py_float format_other remote).
#[local] Abbreviation worlds_before := (worlds_before py_float format_other remote).
#[local] Abbreviation world_after_roster :=
  (world_after_roster py_float format_other remote).

Lemma snapshot_loop_rows queue key items out w :
  NoDup (keys items) →
  (∀ name, name ∈ keys items → name ∉ keys out) →
  snapshot_loop (Client key true) queue items out w
  = (Ok (out ++ zip_with (snapshot_row queue key) items (worlds_before key items w)),
     world_after_roster key items w).
Proof.
  revert out w. induction items as [|[name c] rest IH]; intros out w Hdup Hfresh.
  - simpl. by rewrite app_nil_r.
  - unfold keys in Hdup. rewrite fmap_cons in Hdup.
    apply NoDup_cons in Hdup as [Hname Hdup]. simpl in Hname.
    assert (∀ v : option entry,
              ∀ name', name' ∈ keys rest → name' ∉ keys (od_set name v out))
      as Hfresh'.
    { intros v name' Hin. rewrite od_set_fresh by (apply Hfresh; left).
      unfold keys. rewrite fmap_app. apply not_elem_of_app. split.
      - apply Hfresh. by right.
      - apply not_elem_of_cons. split; [|apply not_elem_of_nil].
        intros ->. by apply Hname. }
    cbn [snapshot_loop worlds_before zip_with].
    unfold world_after_roster. cbn [foldl].
    fold (world_after_roster key rest (world_after_record key (name, c) w)).
    unfold world_after_record, snapshot_row. cbn [fst snd]. cbv zeta.
    destruct (truthy (default VNone (c !! ustr "puuid"))) eqn:Hid;
      cbn [negb]; cbv beta iota.
    + unfold mbind at 1. unfold io_bind at 1. unfold try_except.
      unfold mbind at 1. unfold io_bind at 1.
      destruct (league_entries_spec format_other py_float remote key
                  (default VNone (c !! ustr "puuid")) w)
        as (entries & w1 & Hfetch & _).
      rewrite Hfetch. unfold lift. cbn [snd].
      set (picked := match pick_queue_entry entries queue with
                     | Ok e => e | Raise _ => None end).
      transitivity (snapshot_loop (Client key true) queue rest
                      (od_set name picked out) (slept 0.2 w1)).
      { unfold picked.
        by destruct (pick_queue_entry entries queue) as [e|err]. }
      rewrite (IH _ _ Hdup (Hfresh' picked)).
      rewrite od_set_fresh by (apply Hfresh; left).
      rewrite <-app_assoc. unfold picked.
      by destruct (pick_queue_entry entries queue).
    + rewrite (IH _ _ Hdup (Hfresh' None)).
      rewrite od_set_fresh by (apply Hfresh; left).
      by rewrite <-app_assoc.
Qed.

Lemma snapshot_row_name queue key record wi :
  (snapshot_row queue key record wi).1 = record.1.
Proof.
  unfold snapshot_row.
  destruct (truthy _); [|done].
  destruct (league_entries_by_puuid_euw _ _ _) as [[entries|] ?]; [|done].
  by destruct (pick_queue_entry _ _).
Qed.

Lemma worlds_before_length key roster w :
  length (worlds_before key roster w) = length roster.
Proof.
  revert w. induction roster as [|record rest IH]; intros w; [done|].
  simpl. by rewrite IH.
Qed.

Lemma snapshot_rows_keys queue key roster w :
  keys (zip_with (snapshot_row queue key) roster (worlds_before key roster w))
  = keys roster.
Proof.
  unfold keys. revert w. induction roster as [|record rest IH]; intros w; [done|].
  cbn [worlds_before zip_with]. by rewrite !fmap_cons, snapshot_row_name, IH.
Qed.

Lemma snapshot_row_failed queue key record wi :
  (∀ n v, (requests wi ≤ n < requests (world_after_record key record wi))%nat →
          ¬ delivers (remote n) v) →
  snapshot_row queue key record wi = (record.1, None).
Proof.
  unfold world_after_record, snapshot_row. cbv zeta.
  destruct (truthy _); [|done].
  destruct (league_entries_spec format_other py_float remote key
              (default VNone (record.2 !! ustr "puuid")) wi)
    as (v & w1 & -> & _ & Hv).
  cbn [snd]. intros Hfail.
  destruct Hv as [->|(_ & n & Hn & Hdel)]; [done|].
  by destruct (Hfail n v Hn).
Qed.

Lemma snapshot_row_delivered queue key record wi d :
  snapshot_row queue key record wi = (record.1, Some d) →
  d !! ustr "queueType" = Some (VStr queue)
  ∧ ∃ n l, (requests wi ≤ n < requests (world_after_record key record wi))%nat
           ∧ delivers (remote n) (VList l) ∧ VDict d ∈ l.
Proof.
  unfold world_after_record, snapshot_row. cbv zeta.
  destruct (truthy _); [|done].
  destruct (league_entries_spec format_other py_float remote key
              (default VNone (record.2 !! ustr "puuid")) wi)
    as (v & w1 & -> & _ & Hv).
  cbn [snd].
  destruct (pick_queue_entry v queue) as [picked|] eqn:Hpick; [|done].
  intros [= ->]. destruct v as [| | |s|l|d']; simpl in Hpick; try done.
  - by destruct (negb _).
  - apply first_match_some in Hpick as [Hin Hq]. split; [done|].
    destruct Hv as [[= ->]|(_ & n & Hn & Hdel)].
    + by apply elem_of_nil in Hin.
    + by exists n, l.
  - by destruct (negb _).
Qed.

(** C9: building a snapshot raises nothing, whatever the remote service
    does, and the snapshot has one row for every roster record, in
    roster order: the row of the [i]-th record is the one for the world
    [wi] in which the run handles that record, after the fetches and
    pauses of the records before it.  That row is the absent entry when
    the record has no cached stable id, when its fetch fails (none of the
    requests made for it is answered without error status by a decodable
    body, or the fetch gives the empty list), when no fetched entry is
    for the requested queue and when picking the entry raises; an entry
    that is not absent is one for the requested queue that the service
    delivered to a request made for that record; the absent entry is
    labelled with the unranked marker. *)
Theorem snapshot_covers_roster queue roster key w :
  NoDup (keys roster) →
  ∃ snap w',
    fetch_snapshot queue roster key w = (Ok snap, w')
    ∧ keys snap = keys roster
    ∧ snap = zip_with (snapshot_row queue key) roster (worlds_before key roster w)
    ∧ w' = world_after_roster key roster w
    ∧ (∀ i record, roster !! i = Some record →
         ∃ wi, worlds_before key roster w !! i = Some wi
               ∧ snap !! i = Some (snapshot_row queue key record wi))
    ∧ (∀ record wi,
         truthy (default VNone (record.2 !! ustr "puuid")) = false →
         snapshot_row queue key record wi = (record.1, None))
    ∧ (∀ record wi,
         (∀ n v, (requests wi ≤ n < requests (world_after_record key record wi))%nat →
                 ¬ delivers (remote n) v) →
         snapshot_row queue key record wi = (record.1, None))
    ∧ (∀ record wi w1,
         league_entries_by_puuid_euw (Client key true)
           (default VNone (record.2 !! ustr "puuid")) wi = (Ok (VList []), w1) →
         snapshot_row queue key record wi = (record.1, None))
    ∧ (∀ record wi w1 l,
         league_entries_by_puuid_euw (Client key true)
           (default VNone (record.2 !! ustr "puuid")) wi = (Ok (VList l), w1) →
         (∀ d, VDict d ∈ l → d !! ustr "queueType" ≠ Some (VStr queue)) →
         snapshot_row queue key record wi = (record.1, None))
    ∧ (∀ record wi v w1 e,
         league_entries_by_puuid_euw (Client key true)
           (default VNone (record.2 !! ustr "puuid")) wi = (Ok v, w1) →
         pick_queue_entry v queue = Raise e →
         snapshot_row queue key record wi = (record.1, None))
    ∧ (∀ record wi d,
         snapshot_row queue key record wi = (record.1, Some d) →
         d !! ustr "queueType" = Some (VStr queue)
         ∧ ∃ n l, (requests wi ≤ n < requests (world_after_record key record wi))%nat
                  ∧ delivers (remote n) (VList l) ∧ VDict d ∈ l)
    ∧ (∀ str_title, compact_rank str_title format_other None = Ok (ustr "*Unranked*")).
Proof.
  intros Hdup.
  exists (zip_with (snapshot_row queue key) roster (worlds_before key roster w)),
    (world_after_roster key roster w).
  split.
  { unfold fetch_snapshot, with_client.
    by rewrite (snapshot_loop_rows queue key roster [] w Hdup)
      by (intros name _; apply not_elem_of_nil). }
  split; [apply snapshot_rows_keys|]. split; [done|]. split; [done|].
  split.
  { intros i record Hi.
    destruct (lookup_lt_is_Some_2 (worlds_before key roster w) i) as [wi Hwi].
    { rewrite worlds_before_length. by apply lookup_lt_Some in Hi. }
    exists wi. split; [done|].
    unfold odict in *. by rewrite lookup_zip_with, Hi, Hwi. }
  split.
  { intros record wi Hid. unfold snapshot_row. by rewrite Hid. }
  split; [apply snapshot_row_failed|].
  split.
  { intros record wi w1 Hfetch. unfold snapshot_row.
    rewrite Hfetch. by destruct (truthy _). }
  split.
  { intros record wi w1 l Hfetch Hnone. unfold snapshot_row.
    rewrite Hfetch. destruct (truthy _); [|done]. simpl.
    by destruct (first_match_none l queue Hnone) as [->|[e ->]]. }
  split.
  { intros record wi v w1 e Hfetch Hpick. unfold snapshot_row.
    rewrite Hfetch, Hpick. by destruct (truthy _). }
  split; [apply snapshot_row_delivered|done].
Qed.
End Snapshot.

(** ** Roster mutation *)

Section Commands.
Variable normalize_nfc : pystr → pystr.
Variable quote : pystr → pystr.
Variable py_float : pystr → option Q.
Variable remote : nat → http_outcome.
Variable storage : nat → write_outcome.
Variable RIOT_API_KEY : pystr.

#[local] Abbreviation resolve_puuid_from_riot_id :=
  (resolve_puuid_from_riot_id normalize_nfc quote py_float remote).
#[local] Abbreviation setplayer :=
  (setplayer normalize_nfc quote py_float remote storage RIOT_API_KEY).

(** Resolution reads the network only: the roster and the file stay. *)
Lemma resolve_keeps_roster riot_id key w :
  ∃ r w',
    resolve_puuid_from_riot_id riot_id key w = (r, w')
    ∧ writes w' = writes w ∧ data w' = data w ∧ file w' = file w.
Proof.
  unfold resolve_puuid_from_riot_id.
  destruct (split_riot_id normalize_nfc riot_id) as [game [tag|]];
    [|by exists (Ok VNone), w].
  destruct (negb (truthy (VStr tag))); [by exists (Ok VNone), w|].
  unfold with_client, account_by_riot_id_eu, mbind, io_bind.
  rewrite get_entered.
  destruct (get_loop_spec py_float remote (account_url quote game tag) (seqZ 0 2) w)
    as (v & w' & evs & -> & _ & _ & _ & _ & _ & _ & Hw & Hd & Hf & _).
  exists (puuid_of v), w'. by destruct (puuid_of v).
Qed.

(** C8, amended: a set operation ends in one of three ways.  It fully
    succeeds (the write succeeded, the record with its stable id is in
    the in-memory roster and in the file); or it leaves the in-memory
    roster and the file as they were; or, when the write fails, it raises
    with the record already in the in-memory roster and the file left as
    it was or truncated. *)
Theorem setplayer_outcomes display_name riot_id w :
  ∃ r w',
    setplayer display_name riot_id w = (r, w')
    ∧ ((r = Ok () ∧ storage (writes w) = WriteOk ∧ fully_set display_name w w')
       ∨ untouched w w'
       ∨ (r = Raise OSError
          ∧ (∃ record,
               players (data w')
               = Some (od_set display_name record (roster_of w)))
          ∧ ((storage (writes w) = OpenFails ∧ file w' = file w)
             ∨ (storage (writes w) = WriteFails ∧ file w' = Truncated)))).
Proof.
  unfold setplayer, require_api.
  destruct (negb (truthy (VStr RIOT_API_KEY))).
  { eexists _, _. split; [reflexivity|]. right; left. by split. }
  unfold mbind at 1. unfold io_bind at 1. unfold mret at 1. unfold io_ret at 1.
  cbv beta iota. cbn [negb]. cbv iota.
  unfold mbind at 1. unfold io_bind at 1.
  destruct (resolve_keeps_roster (sanitize_user_key normalize_nfc riot_id)
              RIOT_API_KEY w) as (r & w1 & -> & Hw & Hd & Hf).
  destruct r as [puuid|e].
  2:{ eexists _, _. split; [reflexivity|]. right; left. by split. }
  destruct (truthy puuid) eqn:Hid; cbn [negb]; cbv iota.
  2:{ eexists _, _. split; [reflexivity|]. right; left. by split. }
  unfold mbind, io_bind, set_record, save_data, send, emit. cbn [data writes].
  rewrite Hw.
  destruct (storage (writes w)) eqn:Hst;
    (eexists _, _; split; [reflexivity|]).
  - left. split; [done|]. split; [done|].
    eexists _, puuid. cbn [data file players]. unfold roster_of. rewrite Hd.
    split; [|split; [done|split; reflexivity]].
    rewrite lookup_insert_ne by done. apply lookup_insert_eq.
  - right; right. split; [done|]. cbn [data file players].
    unfold roster_of. rewrite Hd, Hf. split; [by eexists|]. by left.
  - right; right. split; [done|]. cbn [data file players].
    unfold roster_of. rewrite Hd. split; [by eexists|]. by right.
Qed.
End Commands.

(** C8, as stated, fails when the disk cannot be written: setting the
    player [Bob] on an empty roster raises [OSError] after the record was
    put into the in-memory roster, while the file still holds the empty
    roster.  The operation neither fully succeeded nor left the roster
    untouched. *)
Lemma setplayer_not_atomic :
  ∃ w',
    setplayer example_nfc example_quote example_float always_found
      read_only_disk (ustr "key") (ustr "Bob") (ustr "Bob#EUW") empty_world
    = (Raise OSError, w')
    ∧ keys (roster_of w') = [ustr "Bob"]
    ∧ file w' = Saved (Document (Some []))
    ∧ ¬ (fully_set (ustr "Bob") empty_world w' ∨ untouched empty_world w').
Proof.
  destruct (setplayer _ _ _ _ _ _ _ _ _) as [r w'] eqn:Hrun.
  vm_compute in Hrun. injection Hrun as <- <-.
  eexists. split; [reflexivity|]. split; [reflexivity|]. split; [reflexivity|].
  intros [(record & puuid & _ & _ & _ & Hfile)|[Hdata _]]; discriminate.
Qed.

(** ** The theorems at concrete inputs *)

Lemma example_nfc_hash_new s : hash ∈ example_nfc s → hash ∈ s.
Proof. done. Defined.

Lemma example_nfc_hash_inert a b :
  example_nfc (a ++ hash :: b) = example_nfc a ++ hash :: example_nfc b.
Proof. done. Defined.

Lemma resolve_validates_identity_witness :
  resolve_puuid_from_riot_id example_nfc example_quote example_float
    always_found (ustr "NoTag") (ustr "key") empty_world
  = (Ok VNone, empty_world)
  ∧ ∃ a b,
      example_nfc (ustr " Name # Tag ") = a ++ hash :: b ∧ (hash ∉ a)
      ∧ split_riot_id example_nfc (ustr " Name # Tag ")
        = (strip a, Some (strip b))
      ∧ stripped (strip a) ∧ stripped (strip b).
Proof.
  split.
  - apply (resolve_validates_identity example_nfc example_quote example_float
             always_found example_nfc_hash_new example_nfc_hash_inert).
    apply (bool_decide_unpack _). vm_compute. exact I.
  - destruct (resolve_validates_identity example_nfc example_quote example_float
                always_found example_nfc_hash_new example_nfc_hash_inert
                (ustr " Name # Tag ") (ustr "key") empty_world) as [_ Hparts].
    destruct Hparts as (a & b & Hs & Ha & Hsplit & Hsa & Hsb & _).
    { apply (bool_decide_unpack _). vm_compute. exact I. }
    by exists a, b.
Defined.

Lemma split_at_first_hash_witness :
  split_riot_id example_nfc (ustr "Name" ++ hash :: ustr "EU#W")
  = (ustr "Name", Some (ustr "EU#W")).
Proof.
  destruct (split_at_first_hash example_nfc example_quote example_float
              always_found example_nfc_hash_new example_nfc_hash_inert
              (ustr "Name") (ustr "EU#W") (ustr "key") empty_world) as [Hsplit _].
  - apply (bool_decide_unpack _). vm_compute. exact I.
  - apply (bool_decide_unpack _). vm_compute. exact I.
  - rewrite Hsplit. vm_compute. reflexivity.
Defined.

Lemma rate_limited_get_retries_once_witness :
  ∃ v w' rest,
    _get example_float always_limited (Client (ustr "key") true) (ustr "u") 2
      empty_world = (Ok v, w')
    ∧ trace w' = trace empty_world
        ++ [Get (ustr "u"); Sleep 3; Get (ustr "u")] ++ rest
    ∧ gets rest = []
    ∧ requests w' = (requests empty_world + 2)%nat
    ∧ (v = VNone ∨ delivers (always_limited (S (requests empty_world))) v).
Proof.
  apply (rate_limited_get_retries_once example_float always_limited
           (ustr "key") (ustr "u") empty_world
           (Response 429 (Some (ustr "3")) None) 3%Q).
  - reflexivity.
  - reflexivity.
  - left. split; [reflexivity|]. split; [vm_compute; reflexivity|reflexivity].
Defined.

Lemma snapshot_covers_roster_witness :
  ∃ snap w',
    fetch_snapshot example_float example_format first_then_refused
      (ustr "RANKED_SOLO_5x5") example_pair (ustr "key") empty_world
    = (Ok snap, w')
    ∧ snap = [(ustr "A", Some example_gold); (ustr "B", None)].
Proof.
  destruct (snapshot_covers_roster example_float example_format first_then_refused
              (ustr "RANKED_SOLO_5x5") example_pair (ustr "key") empty_world)
    as (snap & w' & Hrun & _ & Hrows & _).
  - apply (bool_decide_unpack _). vm_compute. exact I.
  - exists snap, w'. split; [exact Hrun|].
    rewrite Hrows. vm_compute. reflexivity.
Defined.

(** * Further properties of the code *)

Lemma apply_fst {P Q : Prop} : P ∧ Q → P.
Proof. by intros [? _]. Defined.

(** ** Scores and labels within a tier *)

Lemma score_below_apex e r lp d :
  ranked e r lp → apex r = false → division_rank e = Some d →
  score_for_sort (Some e) = Ok (r * 400 + d * 100 + lp).
Proof.
  intros (Hr & Hlp & _ & _) Hap Hd.
  unfold tier_rank in Hr. unfold league_points in Hlp.
  unfold division_rank in Hd. unfold score_for_sort.
  destruct (e !! ustr "tier") as [[| | |t| |]|] eqn:Htier; try done.
  rewrite (truthy_lookup _ _ _ Htier). simpl negb. cbv iota.
  destruct (e !! ustr "leaguePoints") as [[| |z| | |]|]; try done.
  injection Hlp as ->.
  destruct (e !! ustr "rank") as [[| | |s| |]|]; try done.
  destruct (tier_table _ _ Hr) as [_ Hin]. simpl default.
  rewrite Hin, Hap. simpl. rewrite Hr. simpl. by rewrite Hd.
Qed.

(** X1: within one tier below the apex, valid entries are ordered by
    division first and by league points second. *)
Theorem division_then_points a b r da db la lb :
  valid_rank_entry a r la → valid_rank_entry b r lb → apex r = false →
  division_rank a = Some da → division_rank b = Some db →
  da > db ∨ (da = db ∧ la > lb) →
  ∃ sa sb,
    score_for_sort (Some a) = Ok sa ∧ score_for_sort (Some b) = Ok sb ∧ sa > sb.
Proof.
  intros [Ha Ha100] [Hb Hb100] Hap Hda Hdb Hord.
  rewrite (score_below_apex a r la da), (score_below_apex b r lb db) by done.
  destruct Ha as (_ & _ & Hla & _), Hb as (_ & _ & Hlb & _).
  specialize (Ha100 Hap). specialize (Hb100 Hap).
  eexists _, _. split; [done|]. split; [done|]. lia.
Qed.

Lemma division_then_points_witness :
  ∃ sa sb,
    score_for_sort (Some (rank_entry "GOLD" "I" 0)) = Ok sa
    ∧ score_for_sort (Some (rank_entry "GOLD" "II" 99)) = Ok sb
    ∧ sa > sb.
Proof.
  apply (division_then_points _ _ 3 3 2 0 99);
    try (vm_compute; reflexivity);
    try (repeat split; try (vm_compute; done); lia).
Defined.

(** X2: for an entry of an apex tier the division is not read: setting
    the division to any value changes neither the score nor the label. *)
Theorem apex_ignores_division (str_title : pystr → pystr)
    (format_other : value → pystr) (e : entry) t v :
  e !! ustr "tier" = Some (VStr t) → in_apex (VStr t) = true →
  score_for_sort (Some (<[ustr "rank" := v]> e)) = score_for_sort (Some e)
  ∧ compact_rank str_title format_other (Some (<[ustr "rank" := v]> e))
    = compact_rank str_title format_other (Some e).
Proof.
  intros Htier Hap.
  assert ((<[ustr "rank" := v]> e) !! ustr "tier" = Some (VStr t)) as Htier'.
  { by rewrite lookup_insert_ne. }
  unfold score_for_sort, compact_rank.
  rewrite (truthy_lookup _ _ _ Htier), (truthy_lookup _ _ _ Htier').
  rewrite Htier, Htier'. simpl negb. cbv iota. simpl default. rewrite Hap.
  by rewrite !(lookup_insert_ne e (ustr "rank")).
Qed.

Lemma apex_ignores_division_witness :
  score_for_sort (Some (<[ustr "rank" := VStr "IV"]> (rank_entry "MASTER" "I" 250)))
  = score_for_sort (Some (rank_entry "MASTER" "I" 250)).
Proof.
  apply (apply_fst (apex_ignores_division example_title example_format
                      (rank_entry "MASTER" "I" 250) (ustr "MASTER") (VStr "IV")
                      eq_refl eq_refl)).
Defined.

(** X3: an entry without a tier is scored as Iron (its score is its
    division and points alone) but cannot be labelled: [compact_rank]
    raises [KeyError] on it. *)
Theorem missing_tier_scores_but_no_label (str_title : pystr → pystr)
    (format_other : value → pystr) (e : entry) lp :
  e !! ustr "tier" = None →
  e !! ustr "leaguePoints" = Some (VInt lp) →
  division_is_text e →
  compact_rank str_title format_other (Some e) = Raise KeyError
  ∧ ∃ dv, 0 ≤ dv ≤ 3 ∧ score_for_sort (Some e) = Ok (dv * 100 + lp).
Proof.
  intros Htier Hlp Hdiv. unfold compact_rank, score_for_sort.
  rewrite (truthy_lookup _ _ _ Hlp), Htier, Hlp. simpl negb. cbv iota.
  split; [done|]. unfold division_is_text in Hdiv. simpl default.
  change (in_apex (VStr (ustr "IRON"))) with false. cbv iota.
  change (subscript TIER_ORDER (VStr (ustr "IRON"))) with (Ok 0).
  destruct (e !! ustr "rank") as [[| | |s| |]|]; try done.
  - exists (default 0 (DIV_ORDER !! s)). split; [apply division_table|done].
  - exists 0. by split.
Qed.

Lemma missing_tier_scores_but_no_label_witness :
  compact_rank example_title example_format (Some example_tierless)
  = Raise KeyError.
Proof.
  apply (apply_fst (missing_tier_scores_but_no_label example_title
                      example_format example_tierless 20
                      ltac:(vm_compute; reflexivity)
                      ltac:(vm_compute; reflexivity)
                      ltac:(vm_compute; exact I))).
Defined.

(** ** Picking the entry of a queue *)

Lemma first_match_skips pre rest queue :
  Forall (other_queue queue) pre →
  first_match (pre ++ rest) queue = first_match rest queue.
Proof.
  induction 1 as [|v pre (d & -> & Hd) _ IH]; [done|]. simpl.
  destruct (eq_str _ queue) eqn:Heq; [|done].
  exfalso. apply Hd. unfold eq_str in Heq.
  destruct (d !! ustr "queueType") as [[| | |s| |]|]; try done.
  by apply bool_decide_eq_true in Heq as ->.
Qed.

(** X4: among the fetched entries the first one for the queue wins,
    whatever follows it (further entries for the queue, values that are
    no entries); when every value is an entry for another queue, nothing
    is picked. *)
Theorem first_entry_of_queue_wins (pre rest : list value) (d : entry) queue :
  Forall (other_queue queue) pre →
  d !! ustr "queueType" = Some (VStr queue) →
  pick_queue_entry (VList (pre ++ VDict d :: rest)) queue = Ok (Some d)
  ∧ pick_queue_entry (VList pre) queue = Ok None.
Proof.
  intros Hpre Hd. simpl. split.
  - rewrite first_match_skips by done. simpl. rewrite Hd. simpl.
    by rewrite bool_decide_eq_true_2.
  - rewrite <-(app_nil_r pre). by rewrite first_match_skips.
Qed.

Lemma first_entry_of_queue_wins_witness :
  pick_queue_entry
    (VList ([VDict example_flex] ++ VDict example_solo :: [VNone]))
    (ustr "RANKED_SOLO_5x5")
  = Ok (Some example_solo).
Proof.
  apply (apply_fst (first_entry_of_queue_wins [VDict example_flex] [VNone]
                      example_solo (ustr "RANKED_SOLO_5x5")
           ltac:(repeat constructor; exists example_flex; split;
                   [reflexivity|vm_compute; discriminate])
           ltac:(vm_compute; reflexivity))).
Defined.

(** ** Sorting and rendering a snapshot *)

Lemma mapM_raises {A B} (f : A → result B) pre x rest e :
  Forall (λ y, is_ok (f y) = true) pre → f x = Raise e →
  mapM f (pre ++ x :: rest) = Raise e.
Proof.
  intros Hpre Hx. induction Hpre as [|y pre Hy _ IH]; simpl.
  - by rewrite Hx.
  - destruct (f y); [|done]. simpl. by rewrite IH.
Qed.

Lemma mapM_not_ok {A B} (f : A → result B) l x :
  x ∈ l → is_ok (f x) = false → is_ok (mapM f l) = false.
Proof.
  intros Hx Hf. induction l as [|y l IH]; [by apply elem_of_nil in Hx|].
  simpl. apply elem_of_cons in Hx as [<-|Hx].
  - by destruct (f x).
  - destruct (f y); [|done]. simpl.
    specialize (IH Hx). by destruct (mapM f l).
Qed.

(** X5: sorting raises the error of the first row, in snapshot order,
    whose score cannot be computed. *)
Theorem sort_raises_first_error pre row rest e :
  Forall (λ r, is_ok (order_key r) = true) pre →
  order_key row = Raise e →
  sort_snapshot (pre ++ row :: rest) = Raise e.
Proof.
  intros Hpre Hrow. unfold sort_snapshot, py_sorted.
  rewrite (mapM_raises _ pre row rest e); [done| |].
  - eapply Forall_impl; [exact Hpre|]. intros r Hr.
    unfold order_key in Hr. simpl. by destruct (score_for_sort r.2).
  - unfold order_key in Hrow. simpl. by rewrite Hrow.
Qed.

Lemma sort_raises_first_error_witness :
  sort_snapshot ([(ustr "A", None)]
                 ++ (ustr "B", Some (rank_entry "WOOD" "I" 10))
                 :: [(ustr "C", Some (rank_entry "GOLD" "I" 10))])
  = Raise KeyError.
Proof.
  apply sort_raises_first_error.
  - repeat constructor.
  - vm_compute. reflexivity.
Defined.

Section Embeds.
Variable str_title : pystr → pystr.
Variable format_other : value → pystr.

#[local] Abbreviation compact_rank := (compact_rank str_title format_other).
#[local] Abbreviation embed_lines := (embed_lines str_title format_other).
#[local] Abbreviation build_embed := (build_embed str_title format_other).
#[local] Abbreviation build_embed_from_snapshot :=
  (build_embed_from_snapshot str_title format_other).

Lemma embed_lines_spec (i : Z) (rows : list (pystr * option entry)) :
  Forall (λ row, is_ok (compact_rank row.2) = true) rows →
  ∃ lines,
    embed_lines i rows = Ok lines
    ∧ length lines = length rows
    ∧ ∀ (k : nat) name e,
        rows !! k = Some (name, e) →
        ∃ label,
          compact_rank e = Ok label
          ∧ lines !! k
            = Some (leaderboard_line format_other (i + Z.of_nat k) name label).
Proof.
  intros Hrows. revert i.
  induction Hrows as [|[name e] rows Hrow _ IH]; intros i.
  - exists []. repeat split. intros k ? ?. by rewrite lookup_nil.
  - simpl in Hrow. destruct (IH (i + 1)) as (lines & Hlines & Hlen & Hk).
    destruct (compact_rank e) as [label|] eqn:Hlabel; [|done].
    exists (leaderboard_line format_other i name label :: lines).
    simpl. rewrite Hlabel. simpl. rewrite Hlines. simpl.
    split; [done|]. split; [by rewrite Hlen|].
    intros [|k] name' e' Hlook; simpl in Hlook.
    + injection Hlook as <- <-. exists label. split; [done|].
      simpl. by rewrite Z.add_0_r.
    + destruct (Hk k name' e' Hlook) as (label' & ? & Hline).
      exists label'. split; [done|]. simpl. rewrite Hline.
      do 2 f_equal. lia.
Qed.

(** X6: when every row has a label, the description of the embed has
    one line per row, in the order of the rows; line [k] (from 0) carries
    the place [k + 1], the player's name and the label of the player's
    entry.  Without rows the description is the hint to add players. *)
Theorem build_embed_numbers_rows (rows : list (pystr * option entry))
    (queue_label : pystr) :
  Forall (λ row, is_ok (compact_rank row.2) = true) rows →
  ∃ em lines,
    build_embed rows queue_label = Ok em
    ∧ description em
      = join_lines (match rows with [] => [no_players_line] | _ => lines end)
    ∧ length lines = length rows
    ∧ ∀ (k : nat) name e,
        rows !! k = Some (name, e) →
        ∃ label,
          compact_rank e = Ok label
          ∧ lines !! k
            = Some (leaderboard_line format_other (Z.of_nat k + 1) name label).
Proof.
  intros Hrows.
  destruct (embed_lines_spec 1 rows Hrows) as (lines & Hlines & Hlen & Hk).
  unfold build_embed. rewrite Hlines. simpl.
  eexists _, lines. split; [reflexivity|]. simpl.
  split; [|split; [done|]].
  - destruct rows, lines; simpl in Hlen; try done.
  - intros k name e Hlook. destruct (Hk k name e Hlook) as (label & ? & Hline).
    exists label. split; [done|]. rewrite Hline. do 2 f_equal. lia.
Qed.

(** X7: one entry whose tier is a string outside the table makes the
    whole leaderboard fail: no embed is built for any player. *)
Theorem leaderboard_fails_on_unknown_tier (snap : odict (option entry))
    (name : pystr) (e : entry) (t queue_label : pystr) :
  (name, Some e) ∈ snap →
  e !! ustr "tier" = Some (VStr t) →
  TIER_ORDER !! t = None →
  is_ok (build_embed_from_snapshot snap queue_label) = false.
Proof.
  intros Hin Htier Hnone.
  unfold build_embed_from_snapshot, sort_snapshot, py_sorted.
  assert (is_ok (mapM (λ x : pystr * option entry,
                         k ← score_for_sort x.2; mret (k, x)) snap) = false)
    as Hkeys.
  { apply (mapM_not_ok _ _ _ Hin). cbn [snd].
    by rewrite (unknown_tier_raises e t). }
  by destruct (mapM _ snap).
Qed.
End Embeds.

Lemma build_embed_numbers_rows_witness :
  ∃ em lines,
    build_embed example_title example_format example_snapshot (ustr "Solo/Duo")
    = Ok em
    ∧ description em = join_lines lines ∧ length lines = 4%nat.
Proof.
  destruct (build_embed_numbers_rows example_title example_format
              example_snapshot (ustr "Solo/Duo"))
    as (em & lines & Hem & Hdesc & Hlen & _).
  - repeat (constructor; [vm_compute; reflexivity|]). constructor.
  - exists em, lines. split; [exact Hem|]. split; [exact Hdesc|exact Hlen].
Defined.

Lemma leaderboard_fails_on_unknown_tier_witness :
  is_ok (build_embed_from_snapshot example_title example_format
           [(ustr "A", None); (ustr "B", Some (rank_entry "WOOD" "I" 10))]
           (ustr "Flex")) = false.
Proof.
  apply (leaderboard_fails_on_unknown_tier example_title example_format
           _ (ustr "B") (rank_entry "WOOD" "I" 10) (ustr "WOOD")).
  - right. left.
  - vm_compute. reflexivity.
  - vm_compute. reflexivity.
Defined.

(** ** Retries of the GET *)

Section Retries.
Variable py_float : pystr → option Q.
Variable remote : nat → http_outcome.

#[local] Abbreviation attempt := (attempt py_float remote).
#[local] Abbreviation get_loop := (get_loop py_float remote).
#[local] Abbreviation _get := (_get py_float remote).

Lemma attempt_final url i w :
  (∀ r, remote (requests w) = Responds r → status r ≠ 429) →
  try_except (attempt url i) (λ _, mret (Return VNone)) w
  = (Ok (Return (body_of (remote (requests w)))), requested url w).
Proof.
  intros Hno. unfold try_except, attempt, session_get, mbind, io_bind, body_of.
  fold (requested url w).
  destruct (remote (requests w)) as [| |r] eqn:Hr; [done..|].
  specialize (Hno r eq_refl). apply Z.eqb_neq in Hno. rewrite Hno.
  case_bool_decide as Hin.
  - assert (400 ≤ status r) as Hle.
    { repeat (apply elem_of_cons in Hin as [Hin|Hin]; [lia|]).
      by apply elem_of_nil in Hin. }
    apply Z.leb_le in Hle. by rewrite Hle.
  - destruct (400 <=? status r); [done|]. by destruct (json r).
Qed.

Lemma get_loop_cons url i rest w :
  get_loop url (i :: rest) w
  = match try_except (attempt url i) (λ _, mret (Return VNone)) w with
    | (Ok Continue, w') => get_loop url rest w'
    | (Ok (Return v), w') => (Ok v, w')
    | (Raise e, w') => (Raise e, w')
    end.
Proof.
  simpl. unfold mbind at 1. unfold io_bind.
  destruct (try_except _ _ w) as [[[|v]|e] w']; done.
Qed.
End Retries.

Section RetryProperties.
Variable py_float : pystr → option Q.
Variable remote : nat → http_outcome.

#[local] Abbreviation _get := (_get py_float remote).

(** X8: an outcome that is no 429 ends the call at once: one request, no
    sleep, no further attempt whatever the bound; the call returns the
    body of a response without error status and [None] otherwise. *)
Theorem no_retry_without_rate_limit (key url : pystr) tries w :
  0 < tries →
  (∀ r, remote (requests w) = Responds r → status r ≠ 429) →
  _get (Client key true) url tries w
  = (Ok (body_of (remote (requests w))), requested url w).
Proof.
  intros Htries Hno. rewrite get_entered, seqZ_cons by done.
  by rewrite get_loop_cons, attempt_final.
Qed.

(** X9: a 429 whose [Retry-After] is not a number ends the call at
    once, with [None], without sleeping and without another attempt. *)
Theorem unreadable_retry_after_gives_up (key url : pystr) tries w r h :
  0 < tries →
  remote (requests w) = Responds r → status r = 429 →
  retry_after r = Some h → h ≠ [] → py_float h = None →
  _get (Client key true) url tries w = (Ok VNone, requested url w).
Proof.
  intros Htries Hr H429 Hh Hne Hfloat.
  rewrite get_entered, seqZ_cons, get_loop_cons by done.
  unfold try_except, attempt, session_get, mbind, io_bind, lift, retry_wait.
  rewrite Hr, H429, Hh, Hfloat. destruct h; done.
Qed.

Lemma get_loop_backoff url attempts w :
  (∀ k, (k < length attempts)%nat →
        limited_without_delay (remote (requests w + k))) →
  ∃ w',
    get_loop py_float remote url attempts w = (Ok VNone, w')
    ∧ trace w' = trace w ++ backoff_schedule url attempts
    ∧ requests w' = (requests w + length attempts)%nat.
Proof.
  revert w. induction attempts as [|i rest IH]; intros w Hall.
  - exists w. unfold backoff_schedule. simpl.
    by rewrite app_nil_r, Nat.add_0_r.
  - destruct (Hall 0%nat) as (r & Hr & H429 & Hnone); [simpl; lia|].
    rewrite Nat.add_0_r in Hr.
    assert (try_except (attempt py_float remote url i)
              (λ _, mret (Return VNone)) w
            = (Ok Continue, slept (fallback_wait i) (requested url w))) as Hstep.
    { unfold try_except, attempt, session_get, mbind, io_bind, lift, retry_wait.
      by rewrite Hr, H429, Hnone. }
    rewrite get_loop_cons, Hstep.
    destruct (IH (slept (fallback_wait i) (requested url w))) as (w' & -> & Htr & Hreq).
    { intros k Hk. specialize (Hall (S k)). simpl in *.
      replace (requests w + S k)%nat with (S (requests w + k)) in Hall by lia.
      apply Hall. lia. }
    exists w'. split; [done|]. simpl in *. split; [|lia].
    rewrite Htr. unfold backoff_schedule. simpl.
    by rewrite <-!app_assoc.
Qed.

(** X10: when every attempt meets a 429 without [Retry-After], the call
    makes as many requests as the bound allows, sleeps after each of them
    (after the last one too) and returns [None]; the sleep after attempt
    [i] (from 0) is the larger of [1.5 * (i + 1)] and 2 seconds. *)
Theorem backoff_without_header (key url : pystr) tries w :
  (∀ n, (requests w ≤ n < requests w + Z.to_nat tries)%nat →
        limited_without_delay (remote n)) →
  (∃ w',
     _get (Client key true) url tries w = (Ok VNone, w')
     ∧ trace w' = trace w ++ backoff_schedule url (seqZ 0 tries)
     ∧ requests w' = (requests w + Z.to_nat tries)%nat)
  ∧ ∀ i, (2 <= fallback_wait i)%Q
         ∧ (1.5 * inject_Z (i + 1) <= fallback_wait i)%Q.
Proof.
  intros Hall. split.
  - rewrite get_entered.
    destruct (get_loop_backoff url (seqZ 0 tries) w) as (w' & Hrun & Htr & Hreq).
    { intros k Hk. rewrite length_seqZ in Hk. apply Hall. lia. }
    exists w'. by rewrite length_seqZ in Hreq.
  - intros i. unfold fallback_wait.
    destruct (Qle_bool _ 2) eqn:Hle.
    + apply Qle_bool_iff in Hle. split; [apply Qle_refl|done].
    + split; [|apply Qle_refl].
      apply Qlt_le_weak, Qnot_le_lt. intros Hle'.
      apply Qle_bool_iff in Hle'. congruence.
Qed.

(** X11: a GET touches neither the roster in memory nor the file, sends
    no message, and asks for no other URL than its own, whatever the
    client, the bound and the remote service. *)
Theorem get_only_requests rc (url : pystr) tries w :
  ∃ r w' evs,
    _get rc url tries w = (r, w')
    ∧ data w' = data w ∧ file w' = file w ∧ writes w' = writes w
    ∧ trace w' = trace w ++ evs
    ∧ Forall (λ e, ∀ m, e ≠ Send m) evs
    ∧ Forall (λ u, u = url) (gets evs).
Proof.
  unfold _get. destruct (session rc).
  - destruct (get_loop_spec py_float remote url (seqZ 0 tries) w)
      as (v & w' & evs & Hrun & Htr & Hurl & _ & Hsend & _ & _ & Hw & Hd & Hf & _).
    by exists (Ok v), w', evs.
  - exists (Raise AssertionError), w, []. by rewrite app_nil_r.
Qed.
End RetryProperties.

Lemma no_retry_without_rate_limit_witness :
  _get example_float always_refused (Client (ustr "key") true) (ustr "u") 2
    empty_world
  = (Ok VNone, requested (ustr "u") empty_world).
Proof.
  apply (no_retry_without_rate_limit example_float always_refused);
    [lia|discriminate].
Defined.

Lemma unreadable_retry_after_gives_up_witness :
  _get example_float bad_delay (Client (ustr "key") true) (ustr "u") 2
    empty_world
  = (Ok VNone, requested (ustr "u") empty_world).
Proof.
  apply (unreadable_retry_after_gives_up example_float bad_delay _ _ _ _
           (Response 429 (Some (ustr "soon")) None) (ustr "soon"));
    [lia|reflexivity|reflexivity|reflexivity|discriminate|].
  vm_compute. reflexivity.
Defined.

Lemma backoff_without_header_witness :
  ∃ w',
    _get example_float never_delayed (Client (ustr "key") true) (ustr "u") 3
      empty_world = (Ok VNone, w')
    ∧ trace w' = trace empty_world ++ backoff_schedule (ustr "u") (seqZ 0 3)
    ∧ requests w' = (requests empty_world + Z.to_nat 3)%nat.
Proof.
  apply (apply_fst (backoff_without_header example_float never_delayed
                      (ustr "key") (ustr "u") 3 empty_world
                      ltac:(intros n _; by eexists))).
Defined.

(** ** Snapshots and the rank command read only *)

Section ReadOnly.
Variable py_float : pystr → option Q.
Variable str_title : pystr → pystr.
Variable str_lower : pystr → pystr.
Variable format_other : value → pystr.
Variable remote : nat → http_outcome.
Variable RIOT_API_KEY : pystr.

#[local] Abbreviation league_entries_by_puuid_euw :=
  (league_entries_by_puuid_euw py_float format_other remote).
#[local] Abbreviation snapshot_loop := (snapshot_loop py_float format_other remote).
#[local] Abbreviation fetch_snapshot := (fetch_snapshot py_float format_other remote).
#[local] Abbreviation rank :=
  (rank py_float str_title str_lower format_other remote RIOT_API_KEY).

Lemma league_entries_world key puuid w :
  ∃ v w',
    league_entries_by_puuid_euw (Client key true) puuid w = (Ok v, w')
    ∧ data w' = data w ∧ file w' = file w ∧ writes w' = writes w
    ∧ (requests w ≤ requests w' ≤ requests w + 2)%nat.
Proof.
  unfold league_entries_by_puuid_euw, mbind, io_bind. rewrite get_entered.
  destruct (get_loop_spec py_float remote (league_url format_other puuid)
              (seqZ 0 2) w)
    as (v & w' & evs & -> & _ & _ & _ & _ & Hreq & Hlen & Hw & Hd & Hf & _).
  eexists _, w'. split; [reflexivity|]. simpl in Hlen.
  repeat split; try done; lia.
Qed.

Lemma snapshot_loop_cons rc queue name c rest out :
  snapshot_loop rc queue ((name, c) :: rest) out
  = let puuid := default VNone (c !! ustr "puuid") in
    if negb (truthy puuid) then
      snapshot_loop rc queue rest (od_set name None out)
    else
      picked ← try_except
                 (entries ← league_entries_by_puuid_euw rc puuid;
                  lift (pick_queue_entry entries queue))
                 (λ _, mret None);
      _ ← sleep 0.2;
      snapshot_loop rc queue rest (od_set name picked out).
Proof. reflexivity. Qed.

Lemma snapshot_loop_world queue key items out w :
  ∃ snap w',
    snapshot_loop (Client key true) queue items out w = (Ok snap, w')
    ∧ data w' = data w ∧ file w' = file w ∧ writes w' = writes w
    ∧ (requests w ≤ requests w' ≤ requests w + 2 * length (cached items))%nat
    ∧ (cached items = [] → w' = w).
Proof.
  revert out w. induction items as [|[name c] rest IH]; intros out w.
  - exists out, w. simpl. repeat split; try done; lia.
  - rewrite snapshot_loop_cons. unfold cached. rewrite filter_cons.
    fold (cached rest). cbn [snd]. cbv zeta.
    destruct (truthy (default VNone (c !! ustr "puuid"))) eqn:Hid;
      cbn [negb]; cbv beta iota.
    + unfold mbind at 1. unfold io_bind at 1. unfold try_except.
      unfold mbind at 1. unfold io_bind at 1.
      destruct (league_entries_world key (default VNone (c !! ustr "puuid")) w)
        as (entries & w1 & -> & Hd1 & Hf1 & Hw1 & Hreq1).
      unfold lift.
      set (picked := match pick_queue_entry entries queue with
                     | Ok e => e | Raise _ => None end).
      destruct (IH (od_set name picked out) (slept 0.2 w1))
        as (snap & w' & Hloop & Hd & Hf & Hw & Hreq & _).
      exists snap, w'. rewrite decide_True by done. split.
      * unfold picked in *.
        destruct (pick_queue_entry entries queue) as [e|err]; simpl;
          unfold mbind at 1; unfold io_bind at 1; simpl;
          fold (slept 0.2 w1); by rewrite Hloop.
      * simpl in *. repeat split; try congruence; try lia.
    + destruct (IH (od_set name None out) w)
        as (snap & w' & Hloop & Hd & Hf & Hw & Hreq & Hsame).
      exists snap, w'. rewrite decide_False by congruence.
      repeat split; auto; lia.
Qed.

(** X12: building a snapshot never writes: the roster in memory and the
    file are as before.  It makes at most two requests for every record
    that caches a stable id, and with no such record it leaves the world
    as it was. *)
Theorem snapshot_reads_only (queue key : pystr) (roster : odict cfg) w :
  ∃ snap w',
    fetch_snapshot queue roster key w = (Ok snap, w')
    ∧ data w' = data w ∧ file w' = file w ∧ writes w' = writes w
    ∧ (requests w ≤ requests w' ≤ requests w + 2 * length (cached roster))%nat
    ∧ (cached roster = [] → w' = w).
Proof.
  unfold fetch_snapshot, with_client.
  destruct (snapshot_loop_world queue key roster [] w)
    as (snap & w' & Hloop & Hrest).
  by exists snap, w'.
Qed.

(** X13: the rank command never writes, whether it sends an embed, fails
    or misses its credential; without the credential it makes no request
    and sends the one message that the key is missing.  An embed it
    sends is titled for Solo/Duo when the lower-cased mode is ["solo"],
    and for Flex for every other mode. *)
Theorem rank_reads_only (mode : pystr) w :
  ∃ r w',
    rank mode w = (r, w')
    ∧ data w' = data w ∧ file w' = file w ∧ writes w' = writes w
    ∧ (RIOT_API_KEY = [] →
       r = Ok None ∧ requests w' = requests w
       ∧ trace w' = trace w ++ [Send ReplyKeyMissing])
    ∧ (∀ em, r = Ok (Some em) → title em = title_of_mode str_lower mode).
Proof.
  unfold rank, require_api.
  destruct RIOT_API_KEY as [|c key'] eqn:Hkey.
  { eexists _, _. split; [reflexivity|]. simpl. by repeat split. }
  change (negb (truthy (VStr (c :: key')))) with false. cbv iota.
  unfold mbind at 1. unfold io_bind at 1. unfold mret at 1. unfold io_ret at 1.
  cbn [negb]. cbv iota.
  unfold mbind at 1. unfold io_bind at 1.
  set (queue := if bool_decide (str_lower mode = ustr "solo") then _ else _).
  destruct (snapshot_loop_world queue (c :: key')
              (default [] (players (data w))) [] w)
    as (snap & w' & Hloop & Hd & Hf & Hw & _).
  unfold fetch_snapshot, with_client. rewrite Hloop.
  unfold mbind, io_bind, lift.
  destruct (build_embed_from_snapshot _ _ snap _) as [em|e] eqn:Hem;
    (eexists _, _; split; [reflexivity|]); repeat split; try done.
  intros em' [= <-].
  unfold build_embed_from_snapshot in Hem.
  destruct (sort_snapshot snap) as [rows|]; [|done].
  unfold mbind, result_bind, build_embed in Hem.
  destruct (embed_lines _ _ 1 rows); [|done].
  unfold mbind, result_bind, mret, result_ret in Hem.
  injection Hem as <-. cbn [title]. unfold title_of_mode, queue.
  destruct (bool_decide (str_lower mode = ustr "solo")).
  - by rewrite (bool_decide_eq_true_2 (DEFAULT_QUEUE = _)) by reflexivity.
  - by rewrite (bool_decide_eq_false_2 (ustr "RANKED_FLEX_SR" = _))
      by (vm_compute; discriminate).
Qed.
End ReadOnly.

(** ** Ordered dictionaries *)

Section Odict.
Context {V : Type}.
Implicit Types (d : odict V) (k : pystr) (v : V).

Lemma od_get_None k d : od_get k d = None ↔ k ∉ keys d.
Proof.
  unfold keys. induction d as [|[k' v'] d IH].
  - split; [intros _; apply not_elem_of_nil|done].
  - rewrite fmap_cons, not_elem_of_cons. cbn [od_get fst].
    case_bool_decide as Hk.
    + split; [done|]. intros [Hne _]. congruence.
    + rewrite IH. split; [intros ?; split; [congruence|done]|by intros [_ ?]].
Qed.

Lemma od_get_set_eq k v d : od_get k (od_set k v d) = Some v.
Proof.
  induction d as [|[k' v'] d IH]; cbn [od_set od_get].
  - by rewrite bool_decide_eq_true_2.
  - destruct (decide (k' = k)) as [->|Hk].
    + rewrite (bool_decide_eq_true_2 (k = k)) by done. cbn [od_get].
      by rewrite bool_decide_eq_true_2.
    + rewrite (bool_decide_eq_false_2 (k' = k)) by done. cbn [od_get].
      by rewrite (bool_decide_eq_false_2 (k' = k)) by done.
Qed.

Lemma od_get_set_ne k k' v d : k ≠ k' → od_get k' (od_set k v d) = od_get k' d.
Proof.
  intros Hne. induction d as [|[k0 v0] d IH]; cbn [od_set od_get].
  - by rewrite bool_decide_eq_false_2.
  - destruct (decide (k0 = k)) as [->|Hk].
    + rewrite (bool_decide_eq_true_2 (k = k)) by done. cbn [od_get].
      by rewrite !(bool_decide_eq_false_2 (k = k')) by done.
    + rewrite (bool_decide_eq_false_2 (k0 = k)) by done. cbn [od_get].
      by rewrite IH.
Qed.

Lemma keys_od_set k v d :
  keys (od_set k v d) = if bool_decide (k ∈ keys d) then keys d else keys d ++ [k].
Proof.
  unfold keys. induction d as [|[k' v'] d IH].
  - by rewrite bool_decide_eq_false_2 by apply not_elem_of_nil.
  - cbn [od_set]. destruct (decide (k' = k)) as [->|Hk].
    + rewrite (bool_decide_eq_true_2 (k = k)) by done.
      rewrite !fmap_cons. cbn [fst].
      by rewrite bool_decide_eq_true_2 by left.
    + rewrite (bool_decide_eq_false_2 (k' = k)) by done.
      rewrite !fmap_cons, IH. cbn [fst]. case_bool_decide as Hin.
      * by rewrite bool_decide_eq_true_2 by (by right).
      * rewrite bool_decide_eq_false_2; [done|].
        apply not_elem_of_cons. split; [congruence|done].
Qed.

Lemma od_del_filter k (d : list (pystr * V)) :
  NoDup (keys d) → od_del k d = filter (λ kv, kv.1 ≠ k) d.
Proof.
  unfold keys. induction d as [|[k' v'] d IH]; [done|].
  rewrite fmap_cons. intros [Hk' Hdup]%NoDup_cons. cbn [fst] in Hk'.
  rewrite filter_cons. cbn [od_del fst].
  destruct (decide (k' = k)) as [->|Hk].
  - rewrite (bool_decide_eq_true_2 (k = k)) by done.
    rewrite decide_False by (intros Hne; by apply Hne).
    clear IH Hdup. induction d as [|[k0 v0] d IH]; [done|].
    rewrite fmap_cons in Hk'. apply not_elem_of_cons in Hk' as [Hne Hk'].
    rewrite filter_cons. cbn [fst] in *.
    rewrite decide_True by congruence. by rewrite <-IH.
  - rewrite (bool_decide_eq_false_2 (k' = k)) by done.
    rewrite decide_True by done. by rewrite IH.
Qed.

Lemma od_get_del_eq k d : NoDup (keys d) → od_get k (od_del k d) = None.
Proof.
  intros Hdup. apply od_get_None. rewrite od_del_filter by done.
  unfold keys. intros ([k' v'] & -> & Hin)%list_elem_of_fmap.
  apply list_elem_of_filter in Hin as [Hne _]. done.
Qed.

Lemma od_get_del_ne k k' d : k ≠ k' → od_get k' (od_del k d) = od_get k' d.
Proof.
  intros Hne. induction d as [|[k0 v0] d IH]; [done|]. cbn [od_del od_get].
  destruct (decide (k0 = k)) as [->|Hk].
  - rewrite (bool_decide_eq_true_2 (k = k)) by done.
    by rewrite (bool_decide_eq_false_2 (k = k')) by done.
  - rewrite (bool_decide_eq_false_2 (k0 = k)) by done. cbn [od_get].
    by rewrite IH.
Qed.

Lemma od_del_set_fresh k v d : k ∉ keys d → od_del k (od_set k v d) = d.
Proof.
  unfold keys. induction d as [|[k' v'] d IH]; intros Hk.
  - cbn [od_set od_del]. by rewrite bool_decide_eq_true_2.
  - rewrite fmap_cons in Hk. apply not_elem_of_cons in Hk as [Hne Hk].
    cbn [fst] in Hne. cbn [od_set].
    rewrite (bool_decide_eq_false_2 (k' = k)) by done. cbn [od_del].
    rewrite (bool_decide_eq_false_2 (k' = k)) by done. by rewrite IH.
Qed.
End Odict.

(** ** The weekly post *)

Lemma datetime_le_spec a b :
  datetime_le a b = true
  ↔ ordinal a < ordinal b ∨ (ordinal a = ordinal b ∧ micros a ≤ micros b).
Proof.
  unfold datetime_le.
  rewrite orb_true_iff, andb_true_iff, Z.ltb_lt, Z.eqb_eq, Z.leb_le. done.
Qed.

(** X14: for a time of day within the day, [next_sunday_1800] is a
    Sunday at 18:00 strictly after [now] and at most seven days after it,
    and no Sunday 18:00 lies strictly between the two: at Sunday 18:00
    sharp the next post is a week later. *)
Theorem next_sunday_1800_is_next now :
  0 ≤ micros now < day_micros →
  weekday (next_sunday_1800 now) = sunday
  ∧ micros (next_sunday_1800 now) = six_pm
  ∧ datetime_lt now (next_sunday_1800 now)
  ∧ datetime_le (next_sunday_1800 now) (add_days now 7) = true
  ∧ ∀ t, weekday t = sunday → micros t = six_pm → datetime_lt now t →
         datetime_le (next_sunday_1800 now) t = true.
Proof.
  intros Hday. unfold next_sunday_1800.
  set (target := replace_time _ _ _ _ _).
  assert (weekday target = sunday ∧ micros target = six_pm
          ∧ ordinal now ≤ ordinal target ≤ ordinal now + 6) as (Hwd & Hmic & Hord).
  { unfold target, weekday, sunday, six_pm, replace_time, add_days. simpl.
    unfold WEEKLY_POST_HOUR, WEEKLY_POST_MIN. clear Hday target.
    repeat split; try reflexivity; Z.div_mod_to_equations; lia. }
  clearbody target.
  assert (∀ t, weekday t = sunday → ∃ k, ordinal t = ordinal target + 7 * k)
    as Hweek.
  { intros t Hsun. unfold weekday, sunday in *.
    exists ((ordinal t + 6) / 7 - (ordinal target + 6) / 7).
    clear -Hsun Hwd. Z.div_mod_to_equations; lia. }
  destruct (datetime_le target now) eqn:Hle.
  - apply datetime_le_spec in Hle.
    unfold datetime_lt, six_pm, day_micros in *.
    destruct target as [d m], now as [d0 m0]. simpl in *. subst m.
    split; [|split; [done|split; [lia|split]]].
    + unfold weekday, sunday in *. simpl in *. clear -Hwd.
      Z.div_mod_to_equations; lia.
    + apply datetime_le_spec. simpl. lia.
    + intros [d' m'] Hsun Hm Hlt. apply datetime_le_spec. simpl in *.
      subst m'.
      destruct (Hweek _ Hsun) as [k Hk]. simpl in Hk. lia.
  - assert (¬ (ordinal target < ordinal now
               ∨ ordinal target = ordinal now ∧ micros target ≤ micros now)) as Hgt.
    { rewrite <-datetime_le_spec. congruence. }
    unfold datetime_lt, six_pm, day_micros in *.
    destruct target as [d m], now as [d0 m0]. simpl in *. subst m.
    split; [done|split; [done|split; [lia|split]]].
    + apply datetime_le_spec. simpl. lia.
    + intros [d' m'] Hsun Hm Hlt. apply datetime_le_spec. simpl in *.
      subst m'.
      destruct (Hweek _ Hsun) as [k Hk]. simpl in Hk. lia.
Qed.

Lemma next_sunday_1800_is_next_witness :
  weekday (next_sunday_1800 (Datetime 7 six_pm)) = sunday
  ∧ micros (next_sunday_1800 (Datetime 7 six_pm)) = six_pm
  ∧ datetime_lt (Datetime 7 six_pm) (next_sunday_1800 (Datetime 7 six_pm))
  ∧ datetime_le (next_sunday_1800 (Datetime 7 six_pm))
      (add_days (Datetime 7 six_pm) 7) = true
  ∧ ∀ t, weekday t = sunday → micros t = six_pm →
         datetime_lt (Datetime 7 six_pm) t →
         datetime_le (next_sunday_1800 (Datetime 7 six_pm)) t = true.
Proof.
  apply (next_sunday_1800_is_next (Datetime 7 six_pm)).
  unfold day_micros, six_pm. simpl. lia.
Defined.

(** ** Identities with and without a tag *)

Lemma stripped_strip s : stripped s → strip s = s.
Proof.
  intros [Hhead Hlast].
  assert (lstrip s = s) as Hl.
  { destruct s as [|c s]; [done|]. apply lstrip_nonspace. by apply Hhead. }
  unfold strip, rstrip. rewrite Hl.
  assert (lstrip (reverse s) = reverse s) as ->; [|apply reverse_involutive].
  destruct (reverse s) as [|c t] eqn:Hrev; [done|].
  apply lstrip_nonspace, Hlast. by rewrite <-(reverse_involutive s), Hrev, last_reverse.
Qed.

Lemma strip_blank s : blank s → strip s = [].
Proof.
  intros Hs. unfold strip.
  assert (lstrip s = []) as ->; [|done].
  induction Hs as [|c s Hc _ IH]; simpl; [done|]. by rewrite Hc.
Qed.

Section Tags.
Variable normalize_nfc : pystr → pystr.
Variable quote : pystr → pystr.
Variable py_float : pystr → option Q.
Variable remote : nat → http_outcome.

(** X15: joining a name and a tag with ['#'] and splitting the result
    gives the two back, when both are stripped, the name has no ['#'] and
    the joined string is in normal form. *)
Theorem split_of_join (game tag : pystr) :
  stripped game → stripped tag → hash ∉ game →
  normalize_nfc (game ++ hash :: tag) = game ++ hash :: tag →
  split_riot_id normalize_nfc (game ++ hash :: tag) = (game, Some tag).
Proof.
  intros Hgame Htag Hhash Hnfc.
  rewrite (split_riot_id_parts normalize_nfc _ game tag) by done.
  by rewrite !stripped_strip.
Qed.

(** X16: an identity whose tag is empty or blank, such as ["Name#"], is
    treated as malformed: resolution gives [None] and leaves the world as
    it was, so no request is made. *)
Theorem blank_tag_is_malformed (riot_id key a b : pystr) w :
  normalize_nfc riot_id = a ++ hash :: b → hash ∉ a → blank b →
  resolve_puuid_from_riot_id normalize_nfc quote py_float remote riot_id key w
  = (Ok VNone, w).
Proof.
  intros Hs Ha Hb. unfold resolve_puuid_from_riot_id.
  rewrite (split_riot_id_parts normalize_nfc _ a b) by done.
  by rewrite (strip_blank b).
Qed.
End Tags.

Lemma split_of_join_witness :
  split_riot_id example_nfc (ustr "Hide on bush" ++ hash :: ustr "KR1")
  = (ustr "Hide on bush", Some (ustr "KR1")).
Proof.
  apply split_of_join.
  - split; intros c [= <-]; reflexivity.
  - split; intros c [= <-]; reflexivity.
  - apply (bool_decide_unpack _). vm_compute. exact I.
  - reflexivity.
Defined.

Lemma blank_tag_is_malformed_witness :
  resolve_puuid_from_riot_id example_nfc example_quote example_float
    always_found (ustr "Name# ") (ustr "key") empty_world
  = (Ok VNone, empty_world).
Proof.
  apply (blank_tag_is_malformed example_nfc example_quote example_float
           always_found _ _ (ustr "Name") (ustr " ")).
  - reflexivity.
  - apply (bool_decide_unpack _). vm_compute. exact I.
  - repeat constructor.
Defined.

(** ** Setting and removing players *)

Section RosterCommands.
Variable normalize_nfc : pystr → pystr.
Variable quote : pystr → pystr.
Variable py_float : pystr → option Q.
Variable remote : nat → http_outcome.
Variable storage : nat → write_outcome.
Variable RIOT_API_KEY : pystr.

Hypothesis nfc_hash_new : ∀ s, hash ∈ normalize_nfc s → hash ∈ s.

#[local] Abbreviation resolve_puuid_from_riot_id :=
  (resolve_puuid_from_riot_id normalize_nfc quote py_float remote).
#[local] Abbreviation setplayer :=
  (setplayer normalize_nfc quote py_float remote storage RIOT_API_KEY).
#[local] Abbreviation removeplayer := (removeplayer storage).
#[local] Abbreviation sanitize_user_key := (sanitize_user_key normalize_nfc).
#[local] Abbreviation account_url := (account_url quote).

#[local] Abbreviation after_set := (after_set quote).

Lemma resolve_found riot_id key w game tag r acct puuid :
  split_riot_id normalize_nfc riot_id = (game, Some tag) → tag ≠ [] →
  remote (requests w) = Responds r → status r < 400 →
  json r = Some (VDict acct) → acct !! ustr "puuid" = Some puuid →
  resolve_puuid_from_riot_id riot_id key w
  = (Ok puuid, requested (account_url game tag) w).
Proof.
  intros Hsplit Htag Hr Hstatus Hjson Hpuuid.
  unfold resolve_puuid_from_riot_id. rewrite Hsplit.
  destruct tag as [|c tag]; [done|].
  change (negb (truthy (VStr (c :: tag)))) with false. cbv iota.
  unfold with_client, account_by_riot_id_eu, mbind, io_bind.
  rewrite get_entered, seqZ_cons, get_loop_cons, attempt_final by
    (try done; intros r' Hr'; assert (r' = r) as -> by congruence; lia).
  unfold body_of. rewrite Hr.
  assert ((400 <=? status r) = false) as -> by (apply Z.leb_gt; lia).
  rewrite Hjson. cbn [from_option id]. unfold lift, puuid_of.
  rewrite (truthy_lookup _ _ _ Hpuuid). simpl. by rewrite Hpuuid.
Qed.

Lemma setplayer_success display_name riot_id w game tag r acct puuid :
  RIOT_API_KEY ≠ [] →
  split_riot_id normalize_nfc (sanitize_user_key riot_id) = (game, Some tag) →
  tag ≠ [] →
  remote (requests w) = Responds r → status r < 400 →
  json r = Some (VDict acct) → acct !! ustr "puuid" = Some puuid →
  truthy puuid = true →
  storage (writes w) = WriteOk →
  setplayer display_name riot_id w
  = (Ok (), after_set display_name (sanitize_user_key riot_id) game tag puuid w).
Proof.
  intros Hkey Hsplit Htag Hr Hstatus Hjson Hpuuid Hid Hst.
  unfold setplayer, require_api.
  destruct RIOT_API_KEY as [|c key'] eqn:Hk; [done|].
  change (negb (truthy (VStr (c :: key')))) with false. cbv iota.
  unfold mbind at 1. unfold io_bind at 1. unfold mret at 1. unfold io_ret at 1.
  cbn [negb]. cbv iota. unfold mbind at 1. unfold io_bind at 1.
  rewrite (resolve_found _ _ _ game tag r acct puuid) by done.
  rewrite Hid. cbn [negb]. cbv iota.
  unfold mbind, io_bind, set_record, save_data, send, emit, requested.
  cbn [data writes requests trace file]. rewrite Hst.
  unfold after_set, roster_of, player_record.
  cbn [requests writes trace data file]. by rewrite <-app_assoc.
Qed.

Lemma removeplayer_success display_name w :
  display_name ∈ keys (roster_of w) → storage (writes w) = WriteOk →
  removeplayer display_name w
  = (Ok (Removed display_name), after_remove display_name w).
Proof.
  intros Hin Hst.
  unfold removeplayer, is_tracked, mbind, io_bind, del_record, save_data.
  fold (roster_of w). rewrite bool_decide_eq_true_2 by done.
  cbn [data writes]. by rewrite Hst.
Qed.

(** X17: a set operation that goes through caches the stable id that the
    account service just returned, whatever was cached for the name
    before; the records of the other names are as before, a name that was
    tracked keeps its place and a new one goes last; the file holds the
    new roster, so loading it gives the roster in memory. *)
Theorem setplayer_caches_resolved_id display_name riot_id w game tag r acct puuid :
  RIOT_API_KEY ≠ [] →
  split_riot_id normalize_nfc (sanitize_user_key riot_id) = (game, Some tag) →
  tag ≠ [] →
  remote (requests w) = Responds r → status r < 400 →
  json r = Some (VDict acct) → acct !! ustr "puuid" = Some puuid →
  truthy puuid = true →
  storage (writes w) = WriteOk →
  ∃ w',
    setplayer display_name riot_id w = (Ok (), w')
    ∧ od_get display_name (roster_of w')
      = Some (player_record (sanitize_user_key riot_id) puuid)
    ∧ (∀ other, other ≠ display_name →
         od_get other (roster_of w') = od_get other (roster_of w))
    ∧ keys (roster_of w')
      = (if bool_decide (display_name ∈ keys (roster_of w))
         then keys (roster_of w) else keys (roster_of w) ++ [display_name])
    ∧ file w' = Saved (data w')
    ∧ load_data w' = (Ok (data w'), w')
    ∧ trace w' = trace w ++ [Get (account_url game tag);
                             Send (ReplySet display_name (sanitize_user_key riot_id))].
Proof.
  intros Hkey Hsplit Htag Hr Hstatus Hjson Hpuuid Hid Hst.
  eexists. split; [by eapply setplayer_success|].
  unfold after_set, roster_of. cbn [data players file trace from_option id].
  split; [apply od_get_set_eq|].
  split; [intros other Hne; by apply od_get_set_ne|].
  split; [apply keys_od_set|]. done.
Qed.

(** X18: with a credential and an identity that has a tag, a set
    operation starts with a request to the account service for that
    identity; nothing of the roster is consulted first, so a name that is
    tracked already is resolved again. *)
Theorem setplayer_always_resolves display_name riot_id w game tag :
  RIOT_API_KEY ≠ [] →
  split_riot_id normalize_nfc (sanitize_user_key riot_id) = (game, Some tag) →
  tag ≠ [] →
  ∃ r w' evs,
    setplayer display_name riot_id w = (r, w')
    ∧ trace w' = trace w ++ Get (account_url game tag) :: evs.
Proof.
  intros Hkey Hsplit Htag. unfold setplayer, require_api.
  destruct RIOT_API_KEY as [|c key'] eqn:Hk; [done|].
  change (negb (truthy (VStr (c :: key')))) with false. cbv iota.
  unfold mbind at 1. unfold io_bind at 1. unfold mret at 1. unfold io_ret at 1.
  cbn [negb]. cbv iota. unfold mbind at 1. unfold io_bind at 1.
  destruct (resolve_requests normalize_nfc quote py_float remote
              (sanitize_user_key riot_id) (c :: key') w game tag Hsplit Htag)
    as (r & w1 & evs & -> & Htr & _).
  destruct r as [puuid|e].
  2:{ by eexists _, _, evs. }
  destruct (truthy puuid); cbn [negb]; cbv iota.
  2:{ eexists _, _, (evs ++ [_]). split; [reflexivity|].
      cbn [trace]. by rewrite Htr, <-app_assoc. }
  unfold mbind, io_bind, set_record, save_data, send, emit.
  cbn [data writes requests trace file].
  destruct (storage (writes w1));
    (eexists _, _, _; split; [reflexivity|]); cbn [trace]; rewrite Htr.
  - by rewrite <-app_assoc.
  - by instantiate (1 := evs).
  - by instantiate (1 := evs).
Qed.

(** X19: without a credential a set operation only says that the key is
    missing, and with a credential but an identity without ['#'] it only
    says that the identity could not be resolved: no request, no write,
    the roster and the file as before. *)
Theorem setplayer_rejects display_name riot_id w :
  (RIOT_API_KEY = [] →
   setplayer display_name riot_id w = (Ok (), told ReplyKeyMissing w))
  ∧ (RIOT_API_KEY ≠ [] → hash ∉ riot_id →
     setplayer display_name riot_id w = (Ok (), told ReplyUnresolved w)).
Proof.
  unfold setplayer, require_api. split.
  - by intros ->.
  - intros Hkey Hhash.
    destruct RIOT_API_KEY as [|c key'] eqn:Hk; [done|].
    change (negb (truthy (VStr (c :: key')))) with false. cbv iota.
    unfold mbind at 1. unfold io_bind at 1. unfold mret at 1. unfold io_ret at 1.
    cbn [negb]. cbv iota. unfold mbind at 1. unfold io_bind at 1.
    unfold resolve_puuid_from_riot_id.
    rewrite split_riot_id_no_hash; [done|].
    intros Hin. apply nfc_hash_new in Hin. unfold sanitize_user_key in Hin.
    rewrite elem_of_strip in Hin by done. by apply nfc_hash_new in Hin.
Qed.

(** X20: removing a name that is not tracked changes nothing and writes
    nothing; removing a tracked name, when the write succeeds, deletes
    its record and no other, keeps the order of the rest, and leaves the
    file equal to the roster in memory, without any request. *)
Theorem removeplayer_outcomes display_name w :
  NoDup (keys (roster_of w)) →
  (display_name ∉ keys (roster_of w) →
   removeplayer display_name w = (Ok NotTracked, w))
  ∧ (display_name ∈ keys (roster_of w) → storage (writes w) = WriteOk →
     ∃ w',
       removeplayer display_name w = (Ok (Removed display_name), w')
       ∧ roster_of w' = filter (λ kv, kv.1 ≠ display_name) (roster_of w)
       ∧ od_get display_name (roster_of w') = None
       ∧ (∀ other, other ≠ display_name →
            od_get other (roster_of w') = od_get other (roster_of w))
       ∧ file w' = Saved (data w')
       ∧ requests w' = requests w ∧ trace w' = trace w).
Proof.
  intros Hdup. split.
  - intros Hout. unfold removeplayer, is_tracked, mbind, io_bind.
    fold (roster_of w). by rewrite bool_decide_eq_false_2.
  - intros Hin Hst. eexists. split; [by apply removeplayer_success|].
    unfold after_remove, roster_of. cbn [data players file from_option id].
    fold (roster_of w).
    split; [by apply od_del_filter|].
    split; [by apply od_get_del_eq|].
    split; [intros other Hne; by apply od_get_del_ne|]. done.
Qed.

(** X21: setting a name that was not tracked and then removing it gives
    back the roster there was, in memory and in the file. *)
Theorem set_then_remove display_name riot_id w game tag r acct puuid :
  RIOT_API_KEY ≠ [] →
  split_riot_id normalize_nfc (sanitize_user_key riot_id) = (game, Some tag) →
  tag ≠ [] →
  remote (requests w) = Responds r → status r < 400 →
  json r = Some (VDict acct) → acct !! ustr "puuid" = Some puuid →
  truthy puuid = true →
  storage (writes w) = WriteOk → storage (S (writes w)) = WriteOk →
  display_name ∉ keys (roster_of w) →
  ∃ w1 w2,
    setplayer display_name riot_id w = (Ok (), w1)
    ∧ removeplayer display_name w1 = (Ok (Removed display_name), w2)
    ∧ roster_of w2 = roster_of w
    ∧ file w2 = Saved (Document (Some (roster_of w))).
Proof.
  intros Hkey Hsplit Htag Hr Hstatus Hjson Hpuuid Hid Hst1 Hst2 Hfresh.
  eexists _, _. split; [by eapply setplayer_success|].
  split.
  - apply removeplayer_success; unfold after_set, roster_of;
      cbn [data players writes from_option id]; [|done].
    fold (roster_of w). rewrite keys_od_set.
    rewrite bool_decide_eq_false_2 by done. apply elem_of_app. right. left.
  - unfold after_remove, after_set, roster_of.
    cbn [data players file from_option id]. fold (roster_of w).
    by rewrite od_del_set_fresh.
Qed.
End RosterCommands.

Lemma setplayer_caches_resolved_id_witness :
  ∃ w',
    setplayer example_nfc example_quote example_float always_found
      writable_disk (ustr "key") (ustr "Bob") (ustr " Bob#EUW ") empty_world
    = (Ok (), w')
    ∧ od_get (ustr "Bob") (roster_of w')
      = Some (player_record (ustr "Bob#EUW") (VStr "P-1")).
Proof.
  destruct (setplayer_caches_resolved_id example_nfc example_quote
              example_float always_found writable_disk (ustr "key")
              (ustr "Bob") (ustr " Bob#EUW ") empty_world
              (ustr "Bob") (ustr "EUW") example_found example_account
              (VStr "P-1"))
    as (w' & Hrun & Hget & _).
  - discriminate.
  - vm_compute. reflexivity.
  - discriminate.
  - reflexivity.
  - vm_compute. reflexivity.
  - reflexivity.
  - vm_compute. reflexivity.
  - reflexivity.
  - reflexivity.
  - exists w'. split; [exact Hrun|]. rewrite Hget. f_equal.
Defined.

Lemma setplayer_always_resolves_witness :
  ∃ r w' evs,
    setplayer example_nfc example_quote example_float always_limited
      read_only_disk (ustr "key") (ustr "Bob") (ustr "Bob#EUW") empty_world
    = (r, w')
    ∧ trace w' = trace empty_world
        ++ Get (account_url example_quote (ustr "Bob") (ustr "EUW")) :: evs.
Proof.
  apply (setplayer_always_resolves example_nfc example_quote example_float
           always_limited read_only_disk (ustr "key")).
  - discriminate.
  - vm_compute. reflexivity.
  - discriminate.
Defined.

Lemma setplayer_rejects_witness :
  setplayer example_nfc example_quote example_float always_found
    writable_disk (ustr "key") (ustr "Bob") (ustr "Bob EUW") empty_world
  = (Ok (), told ReplyUnresolved empty_world).
Proof.
  apply (setplayer_rejects example_nfc example_quote example_float
           always_found writable_disk (ustr "key") example_nfc_hash_new).
  - discriminate.
  - apply (bool_decide_unpack _). vm_compute. exact I.
Defined.

Lemma removeplayer_outcomes_witness :
  removeplayer writable_disk (ustr "C") tracked_world
  = (Ok NotTracked, tracked_world)
  ∧ ∃ w',
      removeplayer writable_disk (ustr "A") tracked_world
      = (Ok (Removed (ustr "A")), w')
      ∧ keys (roster_of w') = [ustr "B"].
Proof.
  destruct (removeplayer_outcomes writable_disk (ustr "C") tracked_world)
    as [Hout _].
  { apply (bool_decide_unpack _). vm_compute. exact I. }
  destruct (removeplayer_outcomes writable_disk (ustr "A") tracked_world)
    as [_ Hin].
  { apply (bool_decide_unpack _). vm_compute. exact I. }
  split.
  - apply Hout. apply (bool_decide_unpack _). vm_compute. exact I.
  - destruct Hin as (w' & Hrun & Hroster & _).
    + apply (bool_decide_unpack _). vm_compute. exact I.
    + reflexivity.
    + exists w'. split; [exact Hrun|]. rewrite Hroster. reflexivity.
Defined.

Lemma set_then_remove_witness :
  ∃ w1 w2,
    setplayer example_nfc example_quote example_float always_found
      writable_disk (ustr "key") (ustr "Bob") (ustr "Bob#EUW") empty_world
    = (Ok (), w1)
    ∧ removeplayer writable_disk (ustr "Bob") w1 = (Ok (Removed (ustr "Bob")), w2)
    ∧ roster_of w2 = roster_of empty_world
    ∧ file w2 = Saved (Document (Some (roster_of empty_world))).
Proof.
  apply (set_then_remove example_nfc example_quote example_float always_found
           writable_disk (ustr "key") (ustr "Bob") (ustr "Bob#EUW") empty_world
           (ustr "Bob") (ustr "EUW") example_found example_account (VStr "P-1")).
  - discriminate.
  - vm_compute. reflexivity.
  - discriminate.
  - reflexivity.
  - vm_compute. reflexivity.
  - reflexivity.
  - vm_compute. reflexivity.
  - reflexivity.
  - reflexivity.
  - reflexivity.
  - apply not_elem_of_nil.
Defined.

(** ** What a fetch and a resolution return *)

Section Bodies.
Variable normalize_nfc : pystr → pystr.
Variable quote : pystr → pystr.
Variable py_float : pystr → option Q.
Variable format_other : value → pystr.
Variable remote : nat → http_outcome.

#[local] Abbreviation league_entries_by_puuid_euw :=
  (league_entries_by_puuid_euw py_float format_other remote).
#[local] Abbreviation resolve_puuid_from_riot_id :=
  (resolve_puuid_from_riot_id normalize_nfc quote py_float remote).

(** X22: when the first outcome is no 429, a fetch makes the one request
    for the URL of the stable id and returns the body, except that a
    body that is falsy in Python (an empty list or object, [null], 0, an
    empty string) and every failure come back as the empty list. *)
Theorem fetch_returns_body_or_empty (key : pystr) puuid w :
  (∀ r, remote (requests w) = Responds r → status r ≠ 429) →
  league_entries_by_puuid_euw (Client key true) puuid w
  = (Ok (if truthy (body_of (remote (requests w)))
         then body_of (remote (requests w)) else VList []),
     requested (league_url format_other puuid) w).
Proof.
  intros Hno. unfold league_entries_by_puuid_euw, mbind, io_bind.
  by rewrite get_entered, seqZ_cons, get_loop_cons, attempt_final.
Qed.

(** X23: what the resolver makes of the account service's answer, for
    an identity with a tag and a first outcome that is no 429: an object
    gives its ["puuid"], and [None] without that key; a failure gives
    [None]; a body that is a non-zero number makes the resolver raise
    [TypeError]. *)
Theorem resolve_reads_answer (riot_id key game tag : pystr) w :
  split_riot_id normalize_nfc riot_id = (game, Some tag) → tag ≠ [] →
  (∀ r, remote (requests w) = Responds r → status r ≠ 429) →
  ∃ result,
    resolve_puuid_from_riot_id riot_id key w
    = (result, requested (account_url quote game tag) w)
    ∧ (∀ acct, body_of (remote (requests w)) = VDict acct →
         result = Ok (default VNone (acct !! ustr "puuid")))
    ∧ (body_of (remote (requests w)) = VNone → result = Ok VNone)
    ∧ (∀ z, body_of (remote (requests w)) = VInt z → z ≠ 0 →
         result = Raise TypeError).
Proof.
  intros Hsplit Htag Hno. unfold resolve_puuid_from_riot_id. rewrite Hsplit.
  destruct tag as [|c tag]; [done|].
  change (negb (truthy (VStr (c :: tag)))) with false. cbv iota.
  unfold with_client, account_by_riot_id_eu, mbind, io_bind.
  rewrite get_entered, seqZ_cons, get_loop_cons, attempt_final by done.
  exists (puuid_of (body_of (remote (requests w)))).
  split; [by destruct (puuid_of _)|].
  split; [|split].
  - intros acct ->. unfold puuid_of.
    destruct (truthy (VDict acct)) eqn:Hacct; [done|]. simpl in *.
    destruct (size acct) eqn:Hsize; [|done].
    apply map_size_empty_iff in Hsize as ->. by rewrite lookup_empty.
  - by intros ->.
  - intros z -> Hz. unfold puuid_of. simpl.
    by rewrite (proj2 (Z.eqb_neq z 0) Hz).
Qed.
End Bodies.

Lemma fetch_returns_body_or_empty_witness :
  league_entries_by_puuid_euw example_float example_format always_refused
    (Client (ustr "key") true) (VStr "P-1") empty_world
  = (Ok (VList []),
     requested (league_url example_format (VStr "P-1")) empty_world).
Proof.
  apply (fetch_returns_body_or_empty example_float example_format
           always_refused).
  discriminate.
Defined.

Lemma resolve_reads_answer_witness :
  ∃ result,
    resolve_puuid_from_riot_id example_nfc example_quote example_float
      always_found (ustr "Bob#EUW") (ustr "key") empty_world
    = (result,
       requested (account_url example_quote (ustr "Bob") (ustr "EUW"))
         empty_world)
    ∧ (∀ acct, body_of (always_found (requests empty_world)) = VDict acct →
         result = Ok (default VNone (acct !! ustr "puuid")))
    ∧ (body_of (always_found (requests empty_world)) = VNone →
       result = Ok VNone)
    ∧ (∀ z, body_of (always_found (requests empty_world)) = VInt z → z ≠ 0 →
         result = Raise TypeError).
Proof.
  apply (resolve_reads_answer example_nfc example_quote example_float
           always_found).
  - vm_compute. reflexivity.
  - discriminate.
  - intros r [= <-]. discriminate.
Defined.
